(** * The journal store and its request gateway

    A shallow embedding of [src/main/database.js] (the store: one SQLite
    table behind a module-level connection handle) and of the IPC handlers
    of the main process (the gateway), followed by the properties of the
    store and of the gateway that the specification states.

    - JavaScript values are a small tree type [jsval]; numbers take no part
      in a journal (ids, titles and contents are texts or structures of
      texts) and are left out of the value type.
    - The SQL statements are functions on the table, a list of rows in
      insertion order.  [CURRENT_TIMESTAMP] and [datetime('now')] read the
      clock, which every operation receives as the argument [now].
    - A thrown exception is the [Err] case of [result]; the
      [try { ... } catch (error) { console.error(...); throw error; }]
      wrappers rethrow what they catch and so do not show in the model,
      nor does logging.
    - [JSON.stringify] and [JSON.parse] are builtins of the language: the
      handlers are written over the interface [JSON]; [json_model] is an
      implementation of the interface on [jsval]. *)

From Stdlib Require Import String Ascii List Bool Arith ZArith Lia.
From Stdlib Require Import Permutation Sorted.
Import ListNotations.

Local Open Scope string_scope.
Local Open Scope list_scope.
Local Set Warnings "-register-all".

(** ** JavaScript values *)

Inductive jsval : Type :=
| JUndefined
| JNull
| JBool (b : bool)
| JStr (s : string)
| JArr (elems : list jsval)
| JObj (props : list (string * jsval)).

Inductive js_type : Type := TUndefined | TObject | TBoolean | TString.

(** [typeof v]; [typeof null] is ['object'], and so is the type of an array. *)
Definition typeof (v : jsval) : js_type :=
  match v with
  | JUndefined => TUndefined
  | JNull => TObject
  | JBool _ => TBoolean
  | JStr _ => TString
  | JArr _ => TObject
  | JObj _ => TObject
  end.

Definition js_type_eqb (a b : js_type) : bool :=
  match a, b with
  | TUndefined, TUndefined => true
  | TObject, TObject => true
  | TBoolean, TBoolean => true
  | TString, TString => true
  | _, _ => false
  end.

(** ToBoolean, the test behind [!v] and [v && ...]. *)
Definition truthy (v : jsval) : bool :=
  match v with
  | JUndefined => false
  | JNull => false
  | JBool b => b
  | JStr s => negb (String.eqb s "")
  | JArr _ => true
  | JObj _ => true
  end.

Fixpoint lookup_prop (k : string) (ps : list (string * jsval)) : option jsval :=
  match ps with
  | [] => None
  | (k', v) :: ps' => if String.eqb k' k then Some v else lookup_prop k ps'
  end.

(** [v.k] for the property names the handlers read ([id], [title],
    [content]): a value that is not an object with that property yields
    [undefined].  The handlers read a property only behind the test that
    the record is truthy. *)
Definition get_prop (v : jsval) (k : string) : jsval :=
  match v with
  | JObj ps => match lookup_prop k ps with Some x => x | None => JUndefined end
  | _ => JUndefined
  end.

(** Assignment to a property: an existing property keeps its place, a new
    one goes last. *)
Fixpoint assign_prop (k : string) (x : jsval) (ps : list (string * jsval))
  : list (string * jsval) :=
  match ps with
  | [] => [(k, x)]
  | (k', v) :: ps' =>
      if String.eqb k' k then (k', x) :: ps' else (k', v) :: assign_prop k x ps'
  end.

(** [{ ...v }]: the own properties of an object; the handlers spread a
    record only after they have read a truthy property from it. *)
Definition spread (v : jsval) : list (string * jsval) :=
  match v with
  | JObj ps => ps
  | _ => []
  end.

(** ** Errors and results *)

Inductive error : Type :=
| DatabaseNotInitialized   (* new Error('Database not initialized') *)
| InvalidJournalData       (* new Error('Invalid journal data') *)
| JournalIdRequired        (* new Error('Journal ID is required') *)
| BindError                (* TypeError or RangeError of the statement binder *)
| NoSuchTable              (* SqliteError: no such table: journals *)
| ConstraintError          (* SqliteError: NOT NULL constraint failed: journals.title *)
| PrimaryKeyError.         (* SqliteError: UNIQUE constraint failed: journals.id *)

Inductive result (A : Type) : Type :=
| Ok (a : A)
| Err (e : error).

Arguments Ok {A} a.
Arguments Err {A} e.

(** ** The journals table *)

Definition timestamp : Type := Z.

(** A value bound to a statement parameter or held in a TEXT column. *)
Inductive sqlval : Type :=
| SqlNull
| SqlText (s : string).

(** The columns of [journals]; [C] is the type of [content]: [sqlval] in
    the table, [jsval] in the object a handler returns.  [id] is a TEXT
    PRIMARY KEY of a rowid table, which may hold NULL; [title] is NOT NULL. *)
Record journal_record (C : Type) : Type := mkJournal {
  id : sqlval;
  title : string;
  content : C;
  created_at : timestamp;
  updated_at : timestamp;
  is_published : bool
}.

Arguments mkJournal {C} _ _ _ _ _ _.
Arguments id {C} _.
Arguments title {C} _.
Arguments content {C} _.
Arguments created_at {C} _.
Arguments updated_at {C} _.
Arguments is_published {C} _.

Definition row : Type := journal_record sqlval.
Definition table : Type := list row.

(** The comparison [id = ?]: NULL equals nothing, not even NULL. *)
Definition sql_eq (a b : sqlval) : bool :=
  match a, b with
  | SqlText x, SqlText y => String.eqb x y
  | _, _ => false
  end.

Definition has_id (i : sqlval) (r : row) : bool := sql_eq (id r) i.

(** The named parameters [@id], [@title], [@content] once bound. *)
Record params : Type := mkParams {
  p_id : sqlval;
  p_title : sqlval;
  p_content : sqlval
}.

(** What [stmt.run] returns, as far as the callers look at it. *)
Record run_info : Type := mkRunInfo { changes : nat }.

(** The row that an INSERT naming [id], [title], [content] builds: the
    other columns take their DEFAULT ([CURRENT_TIMESTAMP] twice, and 0). *)
Definition new_row (i : sqlval) (ttl : string) (c : sqlval) (now : timestamp) : row :=
  mkJournal i ttl c now now false.

(** [INSERT INTO journals (id, title, content) VALUES (@id, @title, @content)]:
    the NOT NULL constraint is checked before the primary key. *)
Definition sql_insert (p : params) (now : timestamp) (t : table)
  : result (run_info * table) :=
  match p_title p with
  | SqlNull => Err ConstraintError
  | SqlText ttl =>
      if existsb (has_id (p_id p)) t then Err PrimaryKeyError
      else Ok (mkRunInfo 1, t ++ [new_row (p_id p) ttl (p_content p) now])
  end.

(** [UPDATE journals SET title = @title, content = @content,
     updated_at = CURRENT_TIMESTAMP WHERE id = @id] *)
Definition sql_update (p : params) (now : timestamp) (t : table)
  : result (run_info * table) :=
  match filter (has_id (p_id p)) t with
  | [] => Ok (mkRunInfo 0, t)
  | hit :: hits =>
      match p_title p with
      | SqlNull => Err ConstraintError
      | SqlText ttl =>
          Ok (mkRunInfo (length (hit :: hits)),
              map (fun r =>
                     if has_id (p_id p) r
                     then mkJournal (id r) ttl (p_content p)
                                    (created_at r) now (is_published r)
                     else r) t)
      end
  end.

(** [DELETE FROM journals WHERE id = ?] *)
Definition sql_delete (i : sqlval) (t : table) : run_info * table :=
  (mkRunInfo (length (filter (has_id i) t)),
   filter (fun r => negb (has_id i r)) t).

(** [INSERT OR REPLACE INTO journals (id, title, content, updated_at)
     VALUES (@id, @title, @content, datetime('now'))]: the rows in conflict
    on the primary key are deleted, then the new row is inserted; the
    columns the statement does not name take their DEFAULT.  [title] has no
    DEFAULT, so a NULL title aborts the statement. *)
Definition sql_insert_or_replace (p : params) (now : timestamp) (t : table)
  : result (run_info * table) :=
  match p_title p with
  | SqlNull => Err ConstraintError
  | SqlText ttl =>
      Ok (mkRunInfo 1,
          filter (fun r => negb (has_id (p_id p) r)) t
            ++ [mkJournal (p_id p) ttl (p_content p) now now false])
  end.

(** [SELECT * FROM journals WHERE id = ?], first row. *)
Definition sql_select_by_id (i : sqlval) (t : table) : option row :=
  find (has_id i) t.

(** [ORDER BY updated_at DESC]: a stable insertion sort, which lists rows
    with equal keys in the order of the table; the engine leaves the order
    among equal keys open. *)
Fixpoint insert_desc (r : row) (l : list row) : list row :=
  match l with
  | [] => [r]
  | x :: l' =>
      if (updated_at x <=? updated_at r)%Z then r :: x :: l'
      else x :: insert_desc r l'
  end.

Fixpoint order_by_updated_at_desc (t : table) : list row :=
  match t with
  | [] => []
  | r :: t' => insert_desc r (order_by_updated_at_desc t')
  end.

(** [SELECT * FROM journals ORDER BY updated_at DESC] *)
Definition sql_select_all (t : table) : list row := order_by_updated_at_desc t.

(** ** Binding JavaScript values to statement parameters *)

(** The binder takes strings, and [null] and [undefined] as NULL (numbers,
    bigints and buffers are outside [jsval]); anything else is a
    TypeError. *)
Definition bind_value (v : jsval) : result sqlval :=
  match v with
  | JUndefined => Ok SqlNull
  | JNull => Ok SqlNull
  | JStr s => Ok (SqlText s)
  | _ => Err BindError
  end.

(** One named parameter out of the own properties of the argument; a
    parameter the argument does not own is a RangeError. *)
Definition bind_named (k : string) (ps : list (string * jsval)) : result sqlval :=
  match lookup_prop k ps with
  | Some v => bind_value v
  | None => Err BindError
  end.

(** [stmt.run(journal)] for a statement with [@id], [@title], [@content]:
    the argument must be a plain object that owns the three properties;
    properties the statement does not name are ignored. *)
Definition bind_journal (journal : jsval) : result params :=
  match journal with
  | JObj ps =>
      match bind_named "id" ps with
      | Err e => Err e
      | Ok i =>
          match bind_named "title" ps with
          | Err e => Err e
          | Ok ttl =>
              match bind_named "content" ps with
              | Err e => Err e
              | Ok c => Ok (mkParams i ttl c)
              end
          end
      end
  | _ => Err BindError
  end.

(** [stmt.get(id)] and [stmt.run(id)] for a statement with one [?]: a
    bindable value fills it, an array is taken as the list of positional
    values, a plain object as named values (of which there are none). *)
Definition bind_id (v : jsval) : result sqlval :=
  match v with
  | JArr [x] => bind_value x
  | JArr _ => Err BindError
  | JObj _ => Err BindError
  | _ => bind_value v
  end.

(** ** The store: [journalOperations] *)

(** [db] is the module variable: [true] once a connection is assigned.
    [journals] is the table inside journals.db, [None] while the file has
    no such table. *)
Record world : Type := mkWorld {
  db : bool;
  journals : option table
}.

Definition store_op (A : Type) : Type := world -> result A * world.

Definition ret {A : Type} (a : A) : store_op A := fun w => (Ok a, w).

Definition throw {A : Type} (e : error) : store_op A := fun w => (Err e, w).

Definition bind {A B : Type} (m : store_op A) (k : A -> store_op B) : store_op B :=
  fun w =>
    match m w with
    | (Ok a, w') => k a w'
    | (Err e, w') => (Err e, w')
    end.

Declare Scope store_scope.
Delimit Scope store_scope with store.
Notation "x <- m ;; k" := (bind m (fun x => k))
  (at level 61, m at next level, right associativity) : store_scope.

(** The frame every operation shares: [if (!db) throw new Error('Database
    not initialized')], then prepare and run a statement on the table; a
    statement that throws leaves the table as it was. *)
Definition with_table {A : Type} (stmt : table -> result (A * table)) : store_op A :=
  fun w =>
    if negb (db w) then (Err DatabaseNotInitialized, w)
    else
      match journals w with
      | None => (Err NoSuchTable, w)
      | Some t =>
          match stmt t with
          | Ok (a, t') => (Ok a, mkWorld (db w) (Some t'))
          | Err e => (Err e, w)
          end
      end.

(** Where [initializeDatabase] may throw: before the connection is
    assigned to [db], in [CREATE TABLE IF NOT EXISTS], or in the probe. *)
Inductive init_fault : Type :=
| NoFault
| FaultBeforeOpen
| FaultInCreateTable
| FaultInProbe.

Definition create_table_if_not_exists (o : option table) : option table :=
  match o with
  | Some t => Some t
  | None => Some []
  end.

Definition initializeDatabase (f : init_fault) (w : world) : bool * world :=
  match f with
  | FaultBeforeOpen => (false, w)
  | FaultInCreateTable => (false, mkWorld true (journals w))
  | FaultInProbe => (false, mkWorld true (create_table_if_not_exists (journals w)))
  | NoFault => (true, mkWorld true (create_table_if_not_exists (journals w)))
  end.

Definition initialize (f : init_fault) (w : world) : bool * world :=
  if negb (db w) then initializeDatabase f w else (true, w).

Definition createJournal (journal : jsval) (now : timestamp) : store_op run_info :=
  with_table (fun t =>
    match bind_journal journal with
    | Err e => Err e
    | Ok p => sql_insert p now t
    end).

Definition getAllJournals : store_op (list row) :=
  with_table (fun t => Ok (sql_select_all t, t)).

Definition getJournalById (i : jsval) : store_op (option row) :=
  with_table (fun t =>
    match bind_id i with
    | Err e => Err e
    | Ok v => Ok (sql_select_by_id v t, t)
    end).

Definition updateJournal (journal : jsval) (now : timestamp) : store_op run_info :=
  with_table (fun t =>
    match bind_journal journal with
    | Err e => Err e
    | Ok p => sql_update p now t
    end).

Definition deleteJournal (i : jsval) : store_op run_info :=
  with_table (fun t =>
    match bind_id i with
    | Err e => Err e
    | Ok v => Ok (sql_delete v t)
    end).

Definition autoSaveJournal (journal : jsval) (now : timestamp) : store_op run_info :=
  with_table (fun t =>
    match bind_journal journal with
    | Err e => Err e
    | Ok p => sql_insert_or_replace p now t
    end).

(** ** The gateway: the handlers registered with [ipcMain.handle] *)

(** The builtins [JSON.stringify] (on the arrays and objects the handlers
    pass to it, where it returns a string) and [JSON.parse] ([None] when it
    throws a SyntaxError). *)
Class JSON : Type := {
  JSON_stringify : jsval -> string;
  JSON_parse : string -> option jsval
}.

(** The content of a journal at the application boundary. *)
Record content_structure : Type := mkContent {
  bullets : list string;
  images : list string;
  videos : list string
}.

(** The object [{ bullets: [...], images: [...], videos: [...] }]. *)
Definition content_to_js (c : content_structure) : jsval :=
  JObj [("bullets", JArr (map JStr (bullets c)));
        ("images", JArr (map JStr (images c)));
        ("videos", JArr (map JStr (videos c)))].

(** [{ bullets: [], images: [], videos: [] }] *)
Definition default_content : jsval :=
  JObj [("bullets", JArr []); ("images", JArr []); ("videos", JArr [])].

(** A journal as a handler returns it. *)
Definition journal_obj : Type := journal_record jsval.

Definition js_of_sql (v : sqlval) : jsval :=
  match v with
  | SqlNull => JNull
  | SqlText s => JStr s
  end.

(** The object [stmt.get()] and [stmt.all()] build for a row. *)
Definition row_object (r : row) : journal_obj :=
  mkJournal (id r) (title r) (js_of_sql (content r))
            (created_at r) (updated_at r) (is_published r).

Definition set_content (j : journal_obj) (c : jsval) : journal_obj :=
  mkJournal (id j) (title j) c (created_at j) (updated_at j) (is_published j).

(** [if (journal.content && typeof journal.content === 'string')
       { try { journal.content = JSON.parse(journal.content); }
         catch (parseError) { journal.content = { bullets: [], ... }; } }] *)
Definition parse_content `{JSON} (j : journal_obj) : journal_obj :=
  match content j with
  | JStr s =>
      if truthy (JStr s)
      then set_content j match JSON_parse s with
                         | Some v => v
                         | None => default_content
                         end
      else j
  | _ => j
  end.

(** [if (x.content && typeof x.content === 'object')
       { x.content = JSON.stringify(x.content); }] *)
Definition stringify_content `{JSON} (ps : list (string * jsval))
  : list (string * jsval) :=
  let c := get_prop (JObj ps) "content" in
  if truthy c && js_type_eqb (typeof c) TObject
  then assign_prop "content" (JStr (JSON_stringify c)) ps
  else ps.

Local Open Scope store_scope.

Definition handle_get_journal `{JSON} (i : jsval) : store_op (option journal_obj) :=
  if negb (truthy i) then throw JournalIdRequired
  else
    journal <- getJournalById i ;;
    ret (option_map (fun r => parse_content (row_object r)) journal).

Definition handle_get_all_journals `{JSON} : store_op (list journal_obj) :=
  journals <- getAllJournals ;;
  ret (map (fun r => parse_content (row_object r)) journals).

(** [uuid] is what [uuidv4()] returns in this call. *)
Definition handle_create_journal `{JSON} (uuid : string) (journal : jsval)
  (now : timestamp) : store_op run_info :=
  if negb (truthy journal) || negb (truthy (get_prop journal "title"))
  then throw InvalidJournalData
  else
    let newJournal := assign_prop "id" (JStr uuid) (spread journal) in
    createJournal (JObj (stringify_content newJournal)) now.

Definition handle_update_journal `{JSON} (journal : jsval) (now : timestamp)
  : store_op run_info :=
  if negb (truthy journal) || negb (truthy (get_prop journal "id"))
  then throw InvalidJournalData
  else
    let journalToSave := spread journal in
    updateJournal (JObj (stringify_content journalToSave)) now.

Definition handle_delete_journal (i : jsval) : store_op run_info :=
  if negb (truthy i) then throw JournalIdRequired
  else deleteJournal i.

Definition handle_auto_save_journal `{JSON} (journal : jsval) (now : timestamp)
  : store_op run_info :=
  if negb (truthy journal) || negb (truthy (get_prop journal "id"))
  then throw InvalidJournalData
  else
    let journalToSave := spread journal in
    autoSaveJournal (JObj (stringify_content journalToSave)) now.

Local Close Scope store_scope.

(** ** An implementation of the JSON interface on [jsval] *)

Definition dquote : ascii := "034"%char.
Definition backslash : ascii := "092"%char.

Definition hex_digit (n : nat) : ascii :=
  match n with
  | 0 => "0" | 1 => "1" | 2 => "2" | 3 => "3" | 4 => "4" | 5 => "5"
  | 6 => "6" | 7 => "7" | 8 => "8" | 9 => "9" | 10 => "a" | 11 => "b"
  | 12 => "c" | 13 => "d" | 14 => "e" | _ => "f"
  end%char.

(** QuoteJSONString, one character: the quote, the backslash and the
    control characters are escaped. *)
Definition escape_char (c : ascii) : string :=
  if Ascii.eqb c dquote then String backslash (String dquote "")
  else if Ascii.eqb c backslash then String backslash (String backslash "")
  else if Ascii.eqb c "008" then String backslash "b"
  else if Ascii.eqb c "009" then String backslash "t"
  else if Ascii.eqb c "010" then String backslash "n"
  else if Ascii.eqb c "012" then String backslash "f"
  else if Ascii.eqb c "013" then String backslash "r"
  else if Nat.ltb (nat_of_ascii c) 32
       then String backslash
              (String "u" (String "0" (String "0"
                (String (hex_digit (nat_of_ascii c / 16))
                  (String (hex_digit (nat_of_ascii c mod 16)) "")))))
  else String c "".

Fixpoint escape_string (s : string) : string :=
  match s with
  | "" => ""
  | String c s' => (escape_char c ++ escape_string s')%string
  end.

Definition quote (s : string) : string :=
  String dquote (escape_string s ++ String dquote "")%string.

Fixpoint join_comma (l : list string) : string :=
  match l with
  | [] => ""
  | [x] => x
  | x :: l' => (x ++ "," ++ join_comma l')%string
  end.

(** SerializeJSONProperty: [undefined] is written as null inside an array
    and makes an object drop the property.  Members are written in the
    order of the list, which is the order of [JSON.stringify] for objects
    without integer-like keys, such as content structures. *)
Fixpoint stringify (v : jsval) : string :=
  match v with
  | JUndefined => "null"
  | JNull => "null"
  | JBool true => "true"
  | JBool false => "false"
  | JStr s => quote s
  | JArr vs => ("[" ++ join_comma (map stringify vs) ++ "]")%string
  | JObj ps =>
      ("{" ++ join_comma
               ((fix members (ps : list (string * jsval)) : list string :=
                   match ps with
                   | [] => []
                   | (k, JUndefined) :: ps' => members ps'
                   | (k, x) :: ps' => (quote k ++ ":" ++ stringify x)%string :: members ps'
                   end) ps) ++ "}")%string
  end.

Definition is_ws (c : ascii) : bool :=
  Ascii.eqb c " " || Ascii.eqb c "009" || Ascii.eqb c "010" || Ascii.eqb c "013".

Fixpoint skip_ws (s : string) : string :=
  match s with
  | "" => ""
  | String c s' => if is_ws c then skip_ws s' else s
  end.

Fixpoint strip_prefix (p s : string) : option string :=
  match p with
  | "" => Some s
  | String a p' =>
      match s with
      | "" => None
      | String b s' => if Ascii.eqb a b then strip_prefix p' s' else None
      end
  end.

Definition hex_value (c : ascii) : option nat :=
  let n := nat_of_ascii c in
  if Nat.leb 48 n && Nat.leb n 57 then Some (n - 48)
  else if Nat.leb 97 n && Nat.leb n 102 then Some (n - 87)
  else if Nat.leb 65 n && Nat.leb n 70 then Some (n - 55)
  else None.

Definition hex4 (a b c d : ascii) : option nat :=
  match hex_value a, hex_value b, hex_value c, hex_value d with
  | Some x, Some y, Some z, Some w => Some (((x * 16 + y) * 16 + z) * 16 + w)
  | _, _, _, _ => None
  end.

(** The text of a code unit below 65536, in UTF-8 as the TEXT column
    holds it (the two halves of a surrogate pair are not joined). *)
Definition utf8 (n : nat) : string :=
  if Nat.ltb n 128 then String (ascii_of_nat n) ""
  else if Nat.ltb n 2048
       then String (ascii_of_nat (192 + n / 64))
              (String (ascii_of_nat (128 + n mod 64)) "")
  else String (ascii_of_nat (224 + n / 4096))
         (String (ascii_of_nat (128 + (n / 64) mod 64))
            (String (ascii_of_nat (128 + n mod 64)) "")).

Definition unescape (e : ascii) : option ascii :=
  if Ascii.eqb e dquote then Some dquote
  else if Ascii.eqb e backslash then Some backslash
  else if Ascii.eqb e "/" then Some "/"%char
  else if Ascii.eqb e "b" then Some "008"%char
  else if Ascii.eqb e "t" then Some "009"%char
  else if Ascii.eqb e "n" then Some "010"%char
  else if Ascii.eqb e "f" then Some "012"%char
  else if Ascii.eqb e "r" then Some "013"%char
  else None.

Definition push {A : Type} (pre : string) (o : option (string * A))
  : option (string * A) :=
  match o with
  | Some (x, r) => Some ((pre ++ x)%string, r)
  | None => None
  end.

(** The characters of a string literal after its opening quote: the text
    of the literal and what follows the closing quote. *)
Fixpoint parse_chars (s : string) : option (string * string) :=
  match s with
  | "" => None
  | String c s1 =>
      if Ascii.eqb c dquote then Some ("", s1)
      else if Ascii.eqb c backslash then
        match s1 with
        | "" => None
        | String e s2 =>
            if Ascii.eqb e "u" then
              match s2 with
              | String h1 (String h2 (String h3 (String h4 s3))) =>
                  match hex4 h1 h2 h3 h4 with
                  | Some n => push (utf8 n) (parse_chars s3)
                  | None => None
                  end
              | _ => None
              end
            else
              match unescape e with
              | Some x => push (String x "") (parse_chars s2)
              | None => None
              end
        end
      else if Nat.ltb (nat_of_ascii c) 32 then None
      else push (String c "") (parse_chars s1)
  end.

(** An object from its members in the order of the text: a name that
    comes again overwrites the value and keeps the place. *)
Definition object_of_members (ms : list (string * jsval)) : jsval :=
  JObj (fold_left (fun acc kv => assign_prop (fst kv) (snd kv) acc) ms []).

Fixpoint parse_value (fuel : nat) (s : string) {struct fuel}
  : option (jsval * string) :=
  match fuel with
  | O => None
  | S fuel' =>
      match skip_ws s with
      | "" => None
      | String c r =>
          if Ascii.eqb c dquote then
            match parse_chars r with
            | Some (x, r') => Some (JStr x, r')
            | None => None
            end
          else if Ascii.eqb c "[" then
            match skip_ws r with
            | "" => None
            | String c' r' =>
                if Ascii.eqb c' "]" then Some (JArr [], r')
                else match parse_elements fuel' r with
                     | Some (vs, r'') => Some (JArr vs, r'')
                     | None => None
                     end
            end
          else if Ascii.eqb c "{" then
            match skip_ws r with
            | "" => None
            | String c' r' =>
                if Ascii.eqb c' "}" then Some (JObj [], r')
                else match parse_members fuel' r with
                     | Some (ms, r'') => Some (object_of_members ms, r'')
                     | None => None
                     end
            end
          else if Ascii.eqb c "n" then
            option_map (pair JNull) (strip_prefix "ull" r)
          else if Ascii.eqb c "t" then
            option_map (pair (JBool true)) (strip_prefix "rue" r)
          else if Ascii.eqb c "f" then
            option_map (pair (JBool false)) (strip_prefix "alse" r)
          else None
      end
  end
with parse_elements (fuel : nat) (s : string) {struct fuel}
  : option (list jsval * string) :=
  match fuel with
  | O => None
  | S fuel' =>
      match parse_value fuel' s with
      | None => None
      | Some (v, r) =>
          match skip_ws r with
          | "" => None
          | String c r' =>
              if Ascii.eqb c "," then
                match parse_elements fuel' r' with
                | Some (vs, r'') => Some (v :: vs, r'')
                | None => None
                end
              else if Ascii.eqb c "]" then Some ([v], r')
              else None
          end
      end
  end
with parse_members (fuel : nat) (s : string) {struct fuel}
  : option (list (string * jsval) * string) :=
  match fuel with
  | O => None
  | S fuel' =>
      match skip_ws s with
      | "" => None
      | String q r =>
          if Ascii.eqb q dquote then
            match parse_chars r with
            | None => None
            | Some (k, r1) =>
                match skip_ws r1 with
                | "" => None
                | String c r2 =>
                    if Ascii.eqb c ":" then
                      match parse_value fuel' r2 with
                      | None => None
                      | Some (v, r3) =>
                          match skip_ws r3 with
                          | "" => None
                          | String c' r4 =>
                              if Ascii.eqb c' "," then
                                match parse_members fuel' r4 with
                                | Some (ms, r5) => Some ((k, v) :: ms, r5)
                                | None => None
                                end
                              else if Ascii.eqb c' "}" then Some ([(k, v)], r4)
                              else None
                          end
                      end
                    else None
                end
            end
          else None
      end
  end.

(** The whole text must be one value between white space.  A number has
    no value in [jsval], so a text with a number in it gets no value here
    (where [JSON.parse] returns the number), and the two escapes of a
    surrogate pair are not joined; the properties go through [JSONLaws]
    and use [parse] at the empty text, at texts that are not JSON and at
    serialized content structures. *)
Definition parse (s : string) : option jsval :=
  match parse_value (2 * String.length s + 2) s with
  | Some (v, r) =>
      match skip_ws r with
      | "" => Some v
      | String _ _ => None
      end
  | None => None
  end.

Definition json_model : JSON :=
  {| JSON_stringify := stringify; JSON_parse := parse |}.

(** What the gateway relies on from the builtins: the empty text is not
    JSON, and a content structure survives [JSON.stringify] followed by
    [JSON.parse]. *)
Class JSONLaws (J : JSON) : Prop := {
  JSON_parse_empty : JSON_parse "" = None;
  JSON_parse_stringify :
    forall c : content_structure,
      JSON_parse (JSON_stringify (content_to_js c)) = Some (content_to_js c)
}.

(** A world in which [initialize] has succeeded: the connection is
    assigned and the table exists. *)
Definition open_world (t : table) : world := mkWorld true (Some t).

(** ** Predicates and sample data used in the statements *)

(** The order of [ORDER BY updated_at DESC]. *)
Definition newer_first (a b : row) : Prop := (updated_at b <= updated_at a)%Z.

(** A stored journal, and a record that saves it again under a new title. *)
Definition sample_row : row :=
  mkJournal (SqlText "a") "Day 1" (SqlText "{}") 100%Z 100%Z false.

Definition sample_record : jsval :=
  JObj [("id", JStr "a"); ("title", JStr "Day 1, evening"); ("content", JStr "{}")].

(** No row of the table has its publish flag set. *)
Definition all_unpublished (t : table) : Prop :=
  Forall (fun r => is_published r = false) t.

(** The same journal once its publish flag is set. *)
Definition published_row : row :=
  mkJournal (SqlText "a") "Day 1" (SqlText "{}") 100%Z 100%Z true.

(** A journal stored without content and one stored with the empty text. *)
Definition blank_rows : table :=
  [mkJournal (SqlText "a") "no content" SqlNull 100%Z 100%Z false;
   mkJournal (SqlText "b") "empty content" (SqlText "") 100%Z 200%Z false].

(** Both read handlers return content [c] for the journal with id [i]. *)
Definition reads_back {J : JSON} (t : table) (i : string) (c : jsval) : Prop :=
  (exists j,
      handle_get_journal (JStr i) (open_world t) = (Ok (Some j), open_world t)
      /\ id j = SqlText i /\ content j = c)
  /\ (exists js,
        handle_get_all_journals (open_world t) = (Ok js, open_world t)
        /\ (exists j, In j js /\ id j = SqlText i)
        /\ (forall j, In j js -> id j = SqlText i -> content j = c)).

(** The request [{title: "Day 1", content: {bullets: ["woke up"],
    images: [], videos: []}}]. *)
Definition day1 : content_structure := mkContent ["woke up"] [] [].

Definition day1_request : jsval :=
  JObj [("title", JStr "Day 1"); ("content", content_to_js day1)].

(** ** Further invariants, and the media pickers *)

(** At most one row carries a given text as id: the PRIMARY KEY. *)
Definition ids_unique (t : table) : Prop :=
  forall i, length (filter (has_id (SqlText i)) t) <= 1.

(** No row was updated before it was created or after [now]. *)
Definition well_timed (now : timestamp) (t : table) : Prop :=
  Forall (fun r => (created_at r <= updated_at r <= now)%Z) t.

(** ** The media pickers: [select-image] and [select-video] *)

(** What [dialog.showOpenDialog] resolves to. *)
Record open_dialog_result : Type := mkDialogResult {
  canceled : bool;
  filePaths : list string
}.

(** [fs.readFileSync(path)]: the content of the file, [None] when the call
    throws. *)
Definition file_system : Type := string -> option string.

(** The builtins [path.extname] and [buffer.toString('base64')]. *)
Class Node : Type := {
  path_extname : string -> string;
  toString_base64 : string -> string
}.

(** A handler of the pickers returns a value or throws. *)
Inductive outcome (A : Type) : Type :=
| Returned (a : A)
| Thrown.

Arguments Returned {A} a.
Arguments Thrown {A}.

(** The object [{ path, base64 }] the pickers return. *)
Record media : Type := mkMedia {
  path : string;
  base64 : string
}.

(** [s.slice(1)] *)
Definition slice_1 (s : string) : string :=
  match s with
  | "" => ""
  | String _ s' => s'
  end.

Definition handle_select_image `{Node} (fs : file_system)
  (result : open_dialog_result) : outcome (option media) :=
  if negb (canceled result) && Nat.ltb 0 (length (filePaths result)) then
    match filePaths result with
    | [] => Thrown
    | imagePath :: _ =>
        match fs imagePath with
        | None => Thrown
        | Some imageBuffer =>
            let base64Image := toString_base64 imageBuffer in
            Returned (Some (mkMedia imagePath
              ("data:image/" ++ slice_1 (path_extname imagePath)
                 ++ ";base64," ++ base64Image)%string))
        end
    end
  else Returned None.

Definition handle_select_video `{Node} (fs : file_system)
  (result : open_dialog_result) : outcome (option media) :=
  if negb (canceled result) && Nat.ltb 0 (length (filePaths result)) then
    match filePaths result with
    | [] => Thrown
    | videoPath :: _ =>
        match fs videoPath with
        | None => Thrown
        | Some videoBuffer =>
            let base64Video := toString_base64 videoBuffer in
            let ext := slice_1 (path_extname videoPath) in
            Returned (Some (mkMedia videoPath
              ("data:video/" ++ ext ++ ";base64," ++ base64Video)%string))
        end
    end
  else Returned None.

(** ** The tables the code can produce *)




(** * Properties *)

(** ** The JSON implementation keeps the laws *)

Local Open Scope string_scope.

Lemma string_app_assoc (a b c : string) : ((a ++ b) ++ c = a ++ (b ++ c))%string.
Proof. induction a as [|x a IH]; simpl; [reflexivity | now rewrite IH]. Qed.

Lemma hex4_hex_digit (n : nat) :
  n < 32 ->
  hex4 "0" "0" (hex_digit (n / 16)) (hex_digit (n mod 16)) = Some n.
Proof.
  intros H.
  do 32 (destruct n as [|n]; [vm_compute; reflexivity|]).
  lia.
Qed.

Lemma parse_chars_unicode (h1 h2 h3 h4 : ascii) (s : string) :
  parse_chars
    (String backslash (String "u" (String h1 (String h2 (String h3 (String h4 s))))))
  = match hex4 h1 h2 h3 h4 with
    | Some n => push (utf8 n) (parse_chars s)
    | None => None
    end.
Proof. reflexivity. Qed.

Lemma parse_chars_short (e x : ascii) (s : string) :
  Ascii.eqb e "u" = false ->
  unescape e = Some x ->
  parse_chars (String backslash (String e s)) = push (String x "") (parse_chars s).
Proof.
  intros Hu Hx. cbn [parse_chars]. 
  change (Ascii.eqb backslash dquote) with false.
  change (Ascii.eqb backslash backslash) with true.
  cbv iota. rewrite Hu, Hx. reflexivity.
Qed.

Lemma parse_chars_plain (c : ascii) (s : string) :
  Ascii.eqb c dquote = false ->
  Ascii.eqb c backslash = false ->
  Nat.ltb (nat_of_ascii c) 32 = false ->
  parse_chars (String c s) = push (String c "") (parse_chars s).
Proof.
  intros H1 H2 H3. cbn [parse_chars]. rewrite H1, H2, H3. reflexivity.
Qed.

Lemma parse_chars_escape_char (c : ascii) (s : string) :
  parse_chars (escape_char c ++ s) = push (String c "") (parse_chars s).
Proof.
  unfold escape_char.
  destruct (Ascii.eqb c dquote) eqn:E1.
  { apply Ascii.eqb_eq in E1. subst c. now apply parse_chars_short. }
  destruct (Ascii.eqb c backslash) eqn:E2.
  { apply Ascii.eqb_eq in E2. subst c. now apply parse_chars_short. }
  destruct (Ascii.eqb c "008") eqn:E3.
  { apply Ascii.eqb_eq in E3. subst c. now apply parse_chars_short. }
  destruct (Ascii.eqb c "009") eqn:E4.
  { apply Ascii.eqb_eq in E4. subst c. now apply parse_chars_short. }
  destruct (Ascii.eqb c "010") eqn:E5.
  { apply Ascii.eqb_eq in E5. subst c. now apply parse_chars_short. }
  destruct (Ascii.eqb c "012") eqn:E6.
  { apply Ascii.eqb_eq in E6. subst c. now apply parse_chars_short. }
  destruct (Ascii.eqb c "013") eqn:E7.
  { apply Ascii.eqb_eq in E7. subst c. now apply parse_chars_short. }
  destruct (Nat.ltb (nat_of_ascii c) 32) eqn:E8.
  - apply Nat.ltb_lt in E8.
    cbn [append]. rewrite parse_chars_unicode, hex4_hex_digit by exact E8.
    unfold utf8.
    replace (Nat.ltb (nat_of_ascii c) 128) with true
      by (symmetry; apply Nat.ltb_lt; lia).
    now rewrite ascii_nat_embedding.
  - cbn [append]. now apply parse_chars_plain.
Qed.

Lemma parse_chars_escape_string (s rest : string) :
  parse_chars (escape_string s ++ String dquote rest) = Some (s, rest).
Proof.
  induction s as [|c s IH]; cbn [escape_string append].
  - reflexivity.
  - rewrite string_app_assoc, parse_chars_escape_char, IH. reflexivity.
Qed.

Lemma string_app_length (a b : string) :
  String.length (a ++ b) = String.length a + String.length b.
Proof. induction a as [|x a IH]; simpl; [reflexivity | now rewrite IH]. Qed.

Lemma parse_value_quote (f : nat) (s rest : string) :
  parse_value (S f) (quote s ++ rest) = Some (JStr s, rest).
Proof.
  unfold quote. cbn [append]. rewrite string_app_assoc. cbn [append].
  change (parse_value (S f) (String dquote (escape_string s ++ String dquote rest)))
    with (match parse_chars (escape_string s ++ String dquote rest) with
          | Some (x, r') => Some (JStr x, r')
          | None => None
          end).
  now rewrite parse_chars_escape_string.
Qed.

Lemma parse_elements_step (f : nat) (s : string) :
  parse_elements (S f) s
  = match parse_value f s with
    | None => None
    | Some (v, r) =>
        match skip_ws r with
        | "" => None
        | String c r' =>
            if Ascii.eqb c ","
            then match parse_elements f r' with
                 | Some (vs, r'') => Some (v :: vs, r'')
                 | None => None
                 end
            else if Ascii.eqb c "]" then Some ([v], r')
            else None
        end
    end.
Proof. reflexivity. Qed.

Lemma parse_elements_strings (l : list string) :
  forall (x : string) (f : nat) (rest : string),
    length l + 2 <= f ->
    parse_elements f (join_comma (map quote (x :: l)) ++ String "]" rest)
    = Some (map JStr (x :: l), rest).
Proof.
  induction l as [|y l IH]; intros x f rest Hf.
  - destruct f as [|[|f]]; try (simpl in Hf; lia).
    cbn [map join_comma]. rewrite parse_elements_step, parse_value_quote.
    reflexivity.
  - destruct f as [|[|f]]; try (simpl in Hf; lia).
    change (join_comma (map quote (x :: y :: l)))
      with (quote x ++ String "," (join_comma (map quote (y :: l)))).
    rewrite parse_elements_step, string_app_assoc, parse_value_quote.
    cbn [append].
    change (skip_ws (String "," (join_comma (map quote (y :: l)) ++ String "]" rest)))
      with (String "," (join_comma (map quote (y :: l)) ++ String "]" rest)).
    change (Ascii.eqb "," ",") with true. cbv iota.
    rewrite (IH y (S f) rest) by (simpl in *; lia). reflexivity.
Qed.

Lemma stringify_string_array (l : list string) :
  stringify (JArr (map JStr l)) = ("[" ++ join_comma (map quote l) ++ "]")%string.
Proof.
  cbn [stringify]. rewrite map_map. reflexivity.
Qed.

Lemma parse_value_array_empty (f : nat) (rest : string) :
  parse_value (S f) (String "[" (String "]" rest)) = Some (JArr [], rest).
Proof. reflexivity. Qed.

Lemma parse_value_array_strings (f : nat) (x : string) (r : string) :
  parse_value (S f) (String "[" (quote x ++ r))
  = match parse_elements f (quote x ++ r) with
    | Some (vs, r'') => Some (JArr vs, r'')
    | None => None
    end.
Proof. reflexivity. Qed.

Lemma join_comma_quote_cons (x : string) (l : list string) :
  exists r, join_comma (map quote (x :: l)) = (quote x ++ r)%string.
Proof.
  destruct l as [|y l].
  - exists ""%string. cbn [map join_comma].
    clear. induction (quote x) as [|c s IH]; cbn [append]; congruence.
  - now exists (String "," (join_comma (map quote (y :: l)))).
Qed.

Lemma parse_value_string_array (l : list string) (f : nat) (rest : string) :
  length l + 2 <= f ->
  parse_value f (stringify (JArr (map JStr l)) ++ rest)
  = Some (JArr (map JStr l), rest).
Proof.
  intros Hf. rewrite stringify_string_array.
  destruct f as [|f]; [lia|].
  destruct l as [|x l].
  - reflexivity.
  - cbn [append]. rewrite string_app_assoc. cbn [append].
    destruct (join_comma_quote_cons x l) as [r Hr].
    pose proof (parse_elements_strings l x f rest) as H.
    rewrite Hr in *. rewrite string_app_assoc in *.
    rewrite parse_value_array_strings, H by (simpl in *; lia).
    reflexivity.
Qed.

Lemma parse_members_step (f : nat) (r : string) :
  parse_members (S f) (String dquote r)
  = match parse_chars r with
    | None => None
    | Some (k, r1) =>
        match skip_ws r1 with
        | "" => None
        | String c r2 =>
            if Ascii.eqb c ":" then
              match parse_value f r2 with
              | None => None
              | Some (v, r3) =>
                  match skip_ws r3 with
                  | "" => None
                  | String c' r4 =>
                      if Ascii.eqb c' "," then
                        match parse_members f r4 with
                        | Some (ms, r5) => Some ((k, v) :: ms, r5)
                        | None => None
                        end
                      else if Ascii.eqb c' "}" then Some ([(k, v)], r4)
                      else None
                  end
              end
            else None
        end
    end.
Proof. reflexivity. Qed.

Lemma parse_members_more (f : nat) (k text r : string) (v : jsval) :
  (forall rest, parse_value f (text ++ rest) = Some (v, rest)) ->
  parse_members (S f) (quote k ++ String ":" (text ++ String "," r))
  = match parse_members f r with
    | Some (ms, r5) => Some ((k, v) :: ms, r5)
    | None => None
    end.
Proof.
  intros Hv. unfold quote. cbn [append]. rewrite string_app_assoc. cbn [append].
  rewrite parse_members_step, parse_chars_escape_string.
  change (skip_ws (String ":" (text ++ String "," r)))
    with (String ":" (text ++ String "," r)).
  change (Ascii.eqb ":" ":") with true. cbv iota.
  rewrite Hv. reflexivity.
Qed.

Lemma parse_members_last (f : nat) (k text r : string) (v : jsval) :
  (forall rest, parse_value f (text ++ rest) = Some (v, rest)) ->
  parse_members (S f) (quote k ++ String ":" (text ++ String "}" r))
  = Some ([(k, v)], r).
Proof.
  intros Hv. unfold quote. cbn [append]. rewrite string_app_assoc. cbn [append].
  rewrite parse_members_step, parse_chars_escape_string.
  change (skip_ws (String ":" (text ++ String "}" r)))
    with (String ":" (text ++ String "}" r)).
  change (Ascii.eqb ":" ":") with true. cbv iota.
  rewrite Hv. reflexivity.
Qed.

Lemma parse_value_object (f : nat) (k r : string) :
  parse_value (S f) (String "{" (quote k ++ r))
  = match parse_members f (quote k ++ r) with
    | Some (ms, r'') => Some (object_of_members ms, r'')
    | None => None
    end.
Proof. reflexivity. Qed.

Lemma stringify_content_text (c : content_structure) (rest : string) :
  (stringify (content_to_js c) ++ rest)%string
  = String "{"
      (quote "bullets" ++ String ":" (stringify (JArr (map JStr (bullets c))) ++ String ","
      (quote "images" ++ String ":" (stringify (JArr (map JStr (images c))) ++ String ","
      (quote "videos" ++ String ":" (stringify (JArr (map JStr (videos c))) ++ String "}"
       rest)))))).
Proof.
  unfold content_to_js.
  set (b := JArr (map JStr (bullets c))).
  set (i := JArr (map JStr (images c))).
  set (v := JArr (map JStr (videos c))).
  change (stringify (JObj [("bullets", b); ("images", i); ("videos", v)]))
    with ("{" ++ ((quote "bullets" ++ ":" ++ stringify b) ++ "," ++
                  (quote "images" ++ ":" ++ stringify i) ++ "," ++
                  (quote "videos" ++ ":" ++ stringify v)) ++ "}")%string.
  cbn [append]. repeat (rewrite string_app_assoc; cbn [append]).
  reflexivity.
Qed.

Lemma parse_value_content (c : content_structure) (f : nat) (rest : string) :
  length (bullets c) + 4 <= f ->
  length (images c) + 5 <= f ->
  length (videos c) + 6 <= f ->
  parse_value f (stringify (content_to_js c) ++ rest) = Some (content_to_js c, rest).
Proof.
  intros Hb Hi Hv. rewrite stringify_content_text.
  destruct f as [|[|[|[|f]]]]; try lia.
  rewrite parse_value_object.
  rewrite (parse_members_more _ _ _ _ (JArr (map JStr (bullets c))))
    by (intros; apply parse_value_string_array; lia).
  rewrite (parse_members_more _ _ _ _ (JArr (map JStr (images c))))
    by (intros; apply parse_value_string_array; lia).
  rewrite (parse_members_last _ _ _ _ (JArr (map JStr (videos c))))
    by (intros; apply parse_value_string_array; lia).
  reflexivity.
Qed.

Lemma length_join_comma_quote (l : list string) :
  length l <= String.length (join_comma (map quote l)).
Proof.
  induction l as [|x [|y l] IH].
  - simpl. lia.
  - simpl. lia.
  - change (join_comma (map quote (x :: y :: l)))
      with (quote x ++ String "," (join_comma (map quote (y :: l)))).
    rewrite string_app_length. cbn [String.length length] in *. lia.
Qed.

Lemma length_stringify_content (c : content_structure) :
  length (bullets c) + length (images c) + length (videos c) + 8
  <= String.length (stringify (content_to_js c)).
Proof.
  pose proof (stringify_content_text c "") as H.
  assert (E : forall s, (s ++ "")%string = s)
    by (induction s as [|a s IH]; cbn [append]; congruence).
  rewrite E in H. rewrite H. clear H E.
  rewrite !stringify_string_array.
  cbn [String.length append].
  repeat (rewrite string_app_length; cbn [String.length append]).
  pose proof (length_join_comma_quote (bullets c)).
  pose proof (length_join_comma_quote (images c)).
  pose proof (length_join_comma_quote (videos c)).
  lia.
Qed.

Lemma parse_stringify_content (c : content_structure) :
  parse (stringify (content_to_js c)) = Some (content_to_js c).
Proof.
  unfold parse.
  pose proof (length_stringify_content c) as Hlen.
  pose proof (parse_value_content c
                (2 * String.length (stringify (content_to_js c)) + 2) "") as H.
  assert (E : forall s, (s ++ "")%string = s)
    by (induction s as [|a s IH]; cbn [append]; congruence).
  rewrite E in H. rewrite H by lia. reflexivity.
Qed.

Lemma parse_empty : parse "" = None.
Proof. reflexivity. Qed.

Lemma json_model_laws : JSONLaws json_model.
Proof.
  split.
  - exact parse_empty.
  - exact parse_stringify_content.
Qed.

Local Open Scope list_scope.

(** ** Lists of rows *)

Lemma filter_none {A : Type} (f : A -> bool) (l : list A) :
  (forall x, In x l -> f x = false) -> filter f l = [].
Proof.
  induction l as [|a l IH]; intros H; cbn [filter].
  - reflexivity.
  - rewrite (H a) by now left. apply IH. intros x Hx. apply H. now right.
Qed.

Lemma filter_all {A : Type} (f : A -> bool) (l : list A) :
  (forall x, In x l -> f x = true) -> filter f l = l.
Proof.
  induction l as [|a l IH]; intros H; cbn [filter].
  - reflexivity.
  - rewrite (H a) by now left. f_equal. apply IH. intros x Hx. apply H. now right.
Qed.

Lemma sql_eq_text (v : sqlval) (i : string) :
  sql_eq v (SqlText i) = true <-> v = SqlText i.
Proof.
  destruct v as [|s]; cbn [sql_eq].
  - split; discriminate.
  - rewrite String.eqb_eq. split; congruence.
Qed.

Lemma sql_eq_true (a b : sqlval) :
  sql_eq a b = true -> exists i, a = SqlText i /\ b = SqlText i.
Proof.
  destruct a as [|x], b as [|y]; cbn [sql_eq]; try discriminate.
  intros H. apply String.eqb_eq in H. subst. now exists y.
Qed.

Lemma absent_has_id (t : table) (i : string) :
  (forall r, In r t -> id r <> SqlText i) ->
  forall r, In r t -> has_id (SqlText i) r = false.
Proof.
  intros H r Hr. unfold has_id.
  destruct (sql_eq (id r) (SqlText i)) eqn:E; [|reflexivity].
  apply sql_eq_text in E. now apply H in Hr.
Qed.

Lemma with_table_open {A : Type} (stmt : table -> result (A * table)) (t : table) :
  with_table stmt (open_world t)
  = match stmt t with
    | Ok (a, t') => (Ok a, open_world t')
    | Err e => (Err e, open_world t)
    end.
Proof. reflexivity. Qed.

(** ** Initialization *)

Lemma initialize_success (o : option table) :
  initialize NoFault (mkWorld false o)
  = (true, open_world match o with Some t => t | None => [] end).
Proof. now destruct o. Qed.

Lemma initialize_again (f : init_fault) (t : table) :
  initialize f (open_world t) = (true, open_world t).
Proof. reflexivity. Qed.

Lemma initialize_fault_before_open (w : world) :
  db w = false -> initialize FaultBeforeOpen w = (false, w).
Proof. intros H. unfold initialize. now rewrite H. Qed.

(** A fault in [CREATE TABLE] comes after the connection is assigned:
    [initialize] returns false, [db] is set, and an operation on a file
    without the table fails in the engine. *)
Lemma initialize_fault_in_create_table (journal : jsval) (now : timestamp) :
  let w := snd (initialize FaultInCreateTable (mkWorld false None)) in
  fst (initialize FaultInCreateTable (mkWorld false None)) = false
  /\ db w = true
  /\ createJournal journal now w = (Err NoSuchTable, w).
Proof. repeat split. Qed.

(** ** Ordering *)

Lemma insert_desc_perm (r : row) (l : list row) :
  Permutation (r :: l) (insert_desc r l).
Proof.
  induction l as [|x l IH]; cbn [insert_desc].
  - apply Permutation_refl.
  - destruct (updated_at x <=? updated_at r)%Z.
    + apply Permutation_refl.
    + eapply Permutation_trans; [apply perm_swap|]. now apply perm_skip.
Qed.

Lemma order_by_perm (t : table) : Permutation t (order_by_updated_at_desc t).
Proof.
  induction t as [|r t IH]; cbn [order_by_updated_at_desc].
  - apply perm_nil.
  - eapply Permutation_trans; [|apply insert_desc_perm]. now apply perm_skip.
Qed.

Lemma insert_desc_sorted (r : row) (l : list row) :
  StronglySorted newer_first l -> StronglySorted newer_first (insert_desc r l).
Proof.
  induction l as [|x l IH]; intros Hs; cbn [insert_desc].
  - repeat constructor.
  - inversion Hs as [|? ? Hl Hx]; subst.
    destruct (updated_at x <=? updated_at r)%Z eqn:E.
    + apply Z.leb_le in E. constructor; [exact Hs|].
      constructor; [unfold newer_first; lia|].
      eapply Forall_impl; [|exact Hx]. unfold newer_first. intros; lia.
    + apply Z.leb_gt in E. constructor; [now apply IH|].
      eapply Permutation_Forall; [apply insert_desc_perm|].
      constructor; [unfold newer_first; lia | exact Hx].
Qed.

Lemma order_by_sorted (t : table) :
  StronglySorted newer_first (order_by_updated_at_desc t).
Proof.
  induction t as [|r t IH]; cbn [order_by_updated_at_desc].
  - constructor.
  - now apply insert_desc_sorted.
Qed.

(** C7. [getAllJournals] on an initialized store returns, without error
    and without changing the store, every row of the table (a permutation
    of it) ordered by [updated_at] descending; on a table without rows it
    returns the empty list. *)
Theorem getAllJournals_all_rows_newest_first (t : table) :
  exists l,
    getAllJournals (open_world t) = (Ok l, open_world t)
    /\ Permutation t l
    /\ StronglySorted newer_first l
    /\ (t = [] -> l = []).
Proof.
  exists (order_by_updated_at_desc t). repeat split.
  - apply order_by_perm.
  - apply order_by_sorted.
  - intros ->. reflexivity.
Qed.





(** ** Auto-save *)

Lemma filter_filter_negb {A : Type} (f : A -> bool) (l : list A) :
  filter f (filter (fun x => negb (f x)) l) = [].
Proof.
  apply filter_none. intros x Hx. apply filter_In in Hx.
  destruct Hx as [_ Hx]. now destruct (f x).
Qed.

Lemma filter_negb_filter_negb {A : Type} (f : A -> bool) (l : list A) :
  filter (fun x => negb (f x)) (filter (fun x => negb (f x)) l)
  = filter (fun x => negb (f x)) l.
Proof.
  apply filter_all. intros x Hx. apply filter_In in Hx. tauto.
Qed.

Lemma existsb_has_id_text (v : sqlval) (t : table) :
  existsb (has_id v) t = true -> exists i, v = SqlText i.
Proof.
  intros H. apply existsb_exists in H. destruct H as (r & _ & Hr).
  apply sql_eq_true in Hr. destruct Hr as (i & _ & Hv). now exists i.
Qed.

Lemma has_id_refl (i ttl : string) (c : sqlval) (a b : timestamp) (f : bool) :
  has_id (SqlText i) (mkJournal (SqlText i) ttl c a b f) = true.
Proof. unfold has_id. cbn. apply String.eqb_refl. Qed.

Lemma autoSaveJournal_open (t : table) (journal : jsval) (p : params)
  (ttl : string) (now : timestamp) :
  bind_journal journal = Ok p ->
  p_title p = SqlText ttl ->
  autoSaveJournal journal now (open_world t)
  = (Ok (mkRunInfo 1),
     open_world (filter (fun r => negb (has_id (p_id p) r)) t
                   ++ [mkJournal (p_id p) ttl (p_content p) now now false])).
Proof.
  intros Hb Ht. unfold autoSaveJournal, with_table, open_world. cbn.
  rewrite Hb. unfold sql_insert_or_replace. rewrite Ht. reflexivity.
Qed.

Lemma replaced_row_is_alone (t : table) (i ttl : string) (c : sqlval)
  (now : timestamp) :
  filter (has_id (SqlText i))
    (filter (fun r => negb (has_id (SqlText i) r)) t
       ++ [mkJournal (SqlText i) ttl c now now false])
  = [mkJournal (SqlText i) ttl c now now false].
Proof.
  rewrite filter_app, filter_filter_negb. cbn [filter app].
  now rewrite has_id_refl.
Qed.

(** C2. [autoSaveJournal], given a record the statement can bind with a
    title that is a text, changes one row.  When a row with the record's
    id exists, afterwards exactly one row has that id, and it carries the
    record's title and content and the time of the call as [updated_at],
    while the rows with other ids are as before.  When no row has that id,
    the table gains a new row for the record, where [updateJournal] on the
    same record changes nothing. *)
Theorem autoSaveJournal_upserts (t : table) (journal : jsval) (p : params)
  (ttl : string) (now : timestamp) :
  bind_journal journal = Ok p ->
  p_title p = SqlText ttl ->
  exists t',
    autoSaveJournal journal now (open_world t) = (Ok (mkRunInfo 1), open_world t')
    /\ (existsb (has_id (p_id p)) t = true ->
        (exists r',
            filter (has_id (p_id p)) t' = [r']
            /\ title r' = ttl /\ content r' = p_content p /\ updated_at r' = now)
        /\ filter (fun r => negb (has_id (p_id p) r)) t'
           = filter (fun r => negb (has_id (p_id p) r)) t)
    /\ (existsb (has_id (p_id p)) t = false ->
        t' = t ++ [mkJournal (p_id p) ttl (p_content p) now now false]
        /\ updateJournal journal now (open_world t)
           = (Ok (mkRunInfo 0), open_world t)).
Proof.
  intros Hb Ht. eexists.
  split; [exact (autoSaveJournal_open t journal p ttl now Hb Ht)|]. split.
  - intros Hex. destruct (existsb_has_id_text _ _ Hex) as [i Hi].
    rewrite Hi. split.
    + eexists. split; [apply replaced_row_is_alone|]. now cbn.
    + rewrite filter_app, filter_negb_filter_negb. cbn [filter].
      rewrite has_id_refl. cbn [negb]. apply app_nil_r.
  - intros Hex.
    assert (Hno : forall r, In r t -> has_id (p_id p) r = false).
    { intros r Hr. destruct (has_id (p_id p) r) eqn:E; [|reflexivity].
      rewrite <- Hex. symmetry. apply existsb_exists. now exists r. }
    split.
    + f_equal. apply filter_all. intros r Hr. now rewrite (Hno r Hr).
    + unfold updateJournal, with_table, open_world. cbn.
      rewrite Hb. unfold sql_update. now rewrite (filter_none _ _ Hno).
Qed.

(** C6. Two calls of [autoSaveJournal] in a row with the same record (an
    id and a title that are texts) both succeed and leave exactly one row
    with that id; the row carries the record's title and content, and its
    [updated_at] is the time of the second call. *)
Theorem autoSaveJournal_twice (t : table) (journal : jsval) (p : params)
  (i ttl : string) (now1 now2 : timestamp) :
  bind_journal journal = Ok p ->
  p_id p = SqlText i ->
  p_title p = SqlText ttl ->
  exists t1 t2 r,
    autoSaveJournal journal now1 (open_world t) = (Ok (mkRunInfo 1), open_world t1)
    /\ autoSaveJournal journal now2 (open_world t1) = (Ok (mkRunInfo 1), open_world t2)
    /\ filter (has_id (SqlText i)) t2 = [r]
    /\ title r = ttl /\ content r = p_content p /\ updated_at r = now2.
Proof.
  intros Hb Hi Ht. do 3 eexists.
  split; [exact (autoSaveJournal_open t journal p ttl now1 Hb Ht)|].
  split; [exact (autoSaveJournal_open _ journal p ttl now2 Hb Ht)|].
  rewrite Hi. split; [apply replaced_row_is_alone|]. now cbn.
Qed.

Lemma autoSaveJournal_upserts_witness :
  let p := mkParams (SqlText "a") (SqlText "Day 1, evening") (SqlText "{}") in
  bind_journal sample_record = Ok p
  /\ p_title p = SqlText "Day 1, evening"
  /\ exists t',
      autoSaveJournal sample_record 200%Z (open_world [sample_row])
      = (Ok (mkRunInfo 1), open_world t')
      /\ (existsb (has_id (p_id p)) [sample_row] = true ->
          (exists r',
              filter (has_id (p_id p)) t' = [r']
              /\ title r' = "Day 1, evening" /\ content r' = p_content p
              /\ updated_at r' = 200%Z)
          /\ filter (fun r => negb (has_id (p_id p) r)) t'
             = filter (fun r => negb (has_id (p_id p) r)) [sample_row])
      /\ (existsb (has_id (p_id p)) [sample_row] = false ->
          t' = [sample_row]
                 ++ [mkJournal (p_id p) "Day 1, evening" (p_content p) 200%Z 200%Z false]
          /\ updateJournal sample_record 200%Z (open_world [sample_row])
             = (Ok (mkRunInfo 0), open_world [sample_row])).
Proof.
  intros p. split; [reflexivity|]. split; [reflexivity|].
  apply (autoSaveJournal_upserts [sample_row] sample_record p
           "Day 1, evening" 200%Z); reflexivity.
Defined.

Lemma autoSaveJournal_twice_witness :
  let p := mkParams (SqlText "a") (SqlText "Day 1, evening") (SqlText "{}") in
  bind_journal sample_record = Ok p
  /\ p_id p = SqlText "a"
  /\ p_title p = SqlText "Day 1, evening"
  /\ exists t1 t2 r,
      autoSaveJournal sample_record 200%Z (open_world [sample_row])
      = (Ok (mkRunInfo 1), open_world t1)
      /\ autoSaveJournal sample_record 300%Z (open_world t1)
         = (Ok (mkRunInfo 1), open_world t2)
      /\ filter (has_id (SqlText "a")) t2 = [r]
      /\ title r = "Day 1, evening" /\ content r = p_content p
      /\ updated_at r = 300%Z.
Proof.
  intros p. split; [reflexivity|]. split; [reflexivity|]. split; [reflexivity|].
  apply (autoSaveJournal_twice [sample_row] sample_record p "a"
           "Day 1, evening" 200%Z 300%Z); reflexivity.
Defined.

(** ** What the statements leave alone *)

Lemma sql_update_frame (p : params) (now : timestamp) (t t' : table) (n : run_info) :
  sql_update p now t = Ok (n, t') ->
  map id t' = map id t
  /\ map created_at t' = map created_at t
  /\ map is_published t' = map is_published t.
Proof.
  unfold sql_update. destruct (filter (has_id (p_id p)) t) as [|hit hits].
  - intros H. injection H as _ <-. auto.
  - destruct (p_title p) as [|ttl]; [discriminate|].
    intros H. injection H as _ <-. rewrite !map_map.
    repeat split; apply map_ext; intros r;
      now destruct (has_id (p_id p) r).
Qed.

Lemma sql_insert_frame (p : params) (now : timestamp) (t t' : table) (n : run_info) :
  sql_insert p now t = Ok (n, t') ->
  exists r, t' = t ++ [r] /\ created_at r = now /\ is_published r = false.
Proof.
  unfold sql_insert. destruct (p_title p) as [|ttl]; [discriminate|].
  destruct (existsb (has_id (p_id p)) t); [discriminate|].
  intros H. injection H as _ <-. eexists. split; [reflexivity|]. now cbn.
Qed.

Lemma sql_delete_frame (i : sqlval) (t : table) (r : row) :
  In r (snd (sql_delete i t)) -> In r t.
Proof. cbn. intros H. apply filter_In in H. tauto. Qed.

Ltac run_on_open_world :=
  match goal with
  | H : _ (open_world _) = (Ok _, _) |- _ =>
      unfold createJournal, updateJournal, deleteJournal, autoSaveJournal in H;
      rewrite with_table_open in H
  end.

(** [createJournal], [updateJournal] and [deleteJournal] leave [created_at]
    and [is_published] of the rows they keep as they were; a new row gets
    the time of the call and false. *)
Lemma createJournal_frame (journal : jsval) (now : timestamp) (t : table)
  (n : run_info) (w' : world) :
  createJournal journal now (open_world t) = (Ok n, w') ->
  exists r, w' = open_world (t ++ [r])
            /\ created_at r = now /\ is_published r = false.
Proof.
  intros H. run_on_open_world.
  destruct (bind_journal journal) as [p|e]; [|discriminate].
  destruct (sql_insert p now t) as [[n' t']|e] eqn:E; [|discriminate].
  injection H as _ <-. destruct (sql_insert_frame _ _ _ _ _ E) as (r & -> & Hr).
  now exists r.
Qed.

Lemma updateJournal_frame (journal : jsval) (now : timestamp) (t : table)
  (n : run_info) (w' : world) :
  updateJournal journal now (open_world t) = (Ok n, w') ->
  exists t', w' = open_world t'
             /\ map id t' = map id t
             /\ map created_at t' = map created_at t
             /\ map is_published t' = map is_published t.
Proof.
  intros H. run_on_open_world.
  destruct (bind_journal journal) as [p|e]; [|discriminate].
  destruct (sql_update p now t) as [[n' t']|e] eqn:E; [|discriminate].
  injection H as _ <-. exists t'. split; [reflexivity|].
  exact (sql_update_frame _ _ _ _ _ E).
Qed.

Lemma deleteJournal_frame (i : jsval) (t : table) (n : run_info) (w' : world) :
  deleteJournal i (open_world t) = (Ok n, w') ->
  exists t', w' = open_world t' /\ forall r, In r t' -> In r t.
Proof.
  intros H. run_on_open_world.
  destruct (bind_id i) as [v|e]; [|discriminate].
  injection H as _ <-. eexists. split; [reflexivity|].
  intros r. apply (sql_delete_frame v t r).
Qed.

(** [autoSaveJournal] gives the row it writes the defaults of the columns
    its statement does not name, whatever the row it replaces held. *)
Lemma autoSaveJournal_defaults (journal : jsval) (now : timestamp) (t : table)
  (n : run_info) (w' : world) (p : params) (i : string) :
  bind_journal journal = Ok p ->
  p_id p = SqlText i ->
  autoSaveJournal journal now (open_world t) = (Ok n, w') ->
  exists t' r,
    w' = open_world t'
    /\ filter (has_id (SqlText i)) t' = [r]
    /\ created_at r = now /\ is_published r = false.
Proof.
  intros Hb Hi H. run_on_open_world. rewrite Hb in H.
  unfold sql_insert_or_replace in H. rewrite Hi in H.
  destruct (p_title p) as [|ttl]; [discriminate|].
  injection H as _ <-. do 2 eexists. split; [reflexivity|].
  split; [apply replaced_row_is_alone|]. now cbn.
Qed.

(** X8. No operation of the store sets a publish flag: a table without a
    published row stays so after a [createJournal], [updateJournal],
    [deleteJournal] or [autoSaveJournal] that succeeds. *)
Lemma all_unpublished_preserved (journal i : jsval) (now : timestamp) (t : table) :
  all_unpublished t ->
  forall (n : run_info) (w' : world),
    createJournal journal now (open_world t) = (Ok n, w')
    \/ updateJournal journal now (open_world t) = (Ok n, w')
    \/ deleteJournal i (open_world t) = (Ok n, w')
    \/ autoSaveJournal journal now (open_world t) = (Ok n, w') ->
    exists t', w' = open_world t' /\ all_unpublished t'.
Proof.
  unfold all_unpublished. intros Hall n w' [H|[H|[H|H]]].
  - destruct (createJournal_frame _ _ _ _ _ H) as (r & -> & _ & Hr).
    eexists. split; [reflexivity|]. apply Forall_app. split; [exact Hall|].
    now constructor.
  - destruct (updateJournal_frame _ _ _ _ _ H) as (t' & -> & _ & _ & Hp).
    exists t'. split; [reflexivity|].
    apply Forall_forall. intros r Hr.
    apply (in_map is_published) in Hr. rewrite Hp in Hr.
    apply in_map_iff in Hr. destruct Hr as (r0 & <- & Hr0).
    now apply (proj1 (Forall_forall _ _) Hall).
  - destruct (deleteJournal_frame _ _ _ _ H) as (t' & -> & Hsub).
    exists t'. split; [reflexivity|].
    apply Forall_forall. intros r Hr.
    apply (proj1 (Forall_forall _ _) Hall). now apply Hsub.
  - run_on_open_world.
    destruct (bind_journal journal) as [p|e]; [|discriminate].
    unfold sql_insert_or_replace in H.
    destruct (p_title p) as [|ttl]; [discriminate|].
    injection H as _ <-. eexists. split; [reflexivity|].
    apply Forall_app. split.
    + apply Forall_forall. intros r Hr. apply filter_In in Hr.
      now apply (proj1 (Forall_forall _ _) Hall).
    + now constructor.
Qed.

(** C1. An auto-save of a journal that is already stored sets the row's
    [created_at] again: after [createJournal] at time 100, [autoSaveJournal]
    of the same record at time 200, called directly or through the
    auto-save-journal handler, leaves the only row with [created_at] 200,
    where the same record through [updateJournal] keeps it at 100. *)
Theorem autoSaveJournal_resets_created_at :
  let w0 := open_world [] in
  let w1 := snd (createJournal sample_record 100%Z w0) in
  let saved := snd (autoSaveJournal sample_record 200%Z w1) in
  let handled := snd (@handle_auto_save_journal json_model sample_record 200%Z w1) in
  let updated := snd (updateJournal sample_record 200%Z w1) in
  option_map (map created_at) (journals w1) = Some [100%Z]
  /\ option_map (map created_at) (journals saved) = Some [200%Z]
  /\ option_map (map created_at) (journals handled) = Some [200%Z]
  /\ option_map (map created_at) (journals updated) = Some [100%Z].
Proof. cbv zeta. split; [|split; [|split]]; reflexivity. Qed.

(** On a table that holds a published row, which no statement of the
    store writes, an auto-save, called directly or through the
    auto-save-journal handler, leaves the row with [is_published] false,
    where the same record through [updateJournal] leaves the flag as it
    was. *)
Theorem autoSaveJournal_resets_is_published :
  let w := open_world [published_row] in
  let saved := snd (autoSaveJournal sample_record 200%Z w) in
  let handled := snd (@handle_auto_save_journal json_model sample_record 200%Z w) in
  let updated := snd (updateJournal sample_record 200%Z w) in
  option_map (map is_published) (journals w) = Some [true]
  /\ option_map (map is_published) (journals saved) = Some [false]
  /\ option_map (map is_published) (journals handled) = Some [false]
  /\ option_map (map is_published) (journals updated) = Some [true].
Proof. cbv zeta. split; [|split; [|split]]; reflexivity. Qed.

(** ** Properties of objects *)

Lemma lookup_assign_same (k : string) (x : jsval) (ps : list (string * jsval)) :
  lookup_prop k (assign_prop k x ps) = Some x.
Proof.
  induction ps as [|[k' v] ps IH]; cbn [assign_prop lookup_prop].
  - now rewrite String.eqb_refl.
  - destruct (String.eqb k' k) eqn:E; cbn [lookup_prop]; now rewrite E.
Qed.

Lemma lookup_assign_other (k k' : string) (x : jsval) (ps : list (string * jsval)) :
  k <> k' ->
  lookup_prop k' (assign_prop k x ps) = lookup_prop k' ps.
Proof.
  intros Hk. induction ps as [|[k0 v] ps IH]; cbn [assign_prop lookup_prop].
  - destruct (String.eqb k k') eqn:E; [|reflexivity].
    apply String.eqb_eq in E. contradiction.
  - destruct (String.eqb k0 k) eqn:E; cbn [lookup_prop].
    + apply String.eqb_eq in E. subst k0.
      destruct (String.eqb k k') eqn:E'; [|reflexivity].
      apply String.eqb_eq in E'. contradiction.
    + now rewrite IH.
Qed.

Lemma get_assign_same (k : string) (x : jsval) (ps : list (string * jsval)) :
  get_prop (JObj (assign_prop k x ps)) k = x.
Proof. cbn [get_prop]. now rewrite lookup_assign_same. Qed.

Lemma get_assign_other (k k' : string) (x : jsval) (ps : list (string * jsval)) :
  k <> k' ->
  get_prop (JObj (assign_prop k x ps)) k' = get_prop (JObj ps) k'.
Proof. intros H. cbn [get_prop]. now rewrite lookup_assign_other. Qed.

Lemma truthy_prop_is_object (v : jsval) (k : string) :
  truthy (get_prop v k) = true -> exists ps, v = JObj ps.
Proof. destruct v; cbn; try discriminate. intros _. now eexists. Qed.

Section Gateway.
Context {J : JSON}.

Lemma stringify_content_content (ps : list (string * jsval)) :
  let c := get_prop (JObj ps) "content" in
  get_prop (JObj (stringify_content ps)) "content"
  = if truthy c && js_type_eqb (typeof c) TObject
    then JStr (JSON_stringify c) else c.
Proof.
  unfold stringify_content. cbv zeta.
  destruct (truthy (get_prop (JObj ps) "content")
            && js_type_eqb (typeof (get_prop (JObj ps) "content")) TObject).
  - apply get_assign_same.
  - reflexivity.
Qed.

Lemma stringify_content_other (ps : list (string * jsval)) (k : string) :
  "content" <> k ->
  lookup_prop k (stringify_content ps) = lookup_prop k ps.
Proof.
  intros Hk. unfold stringify_content.
  destruct (truthy _ && _); [|reflexivity].
  now apply lookup_assign_other.
Qed.

(** ** The create-journal handler *)

Lemma handle_create_journal_forwards (uuid : string)
  (ps : list (string * jsval)) (now : timestamp) (w : world) :
  truthy (get_prop (JObj ps) "title") = true ->
  handle_create_journal uuid (JObj ps) now w
  = createJournal (JObj (stringify_content (assign_prop "id" (JStr uuid) ps))) now w.
Proof.
  intros Ht. unfold handle_create_journal. rewrite Ht. reflexivity.
Qed.

(** C9. The create-journal handler fails with 'Invalid journal data',
    without reaching the store, when the record has no title (no record,
    no such property, or a title that is undefined, null or the empty
    text).  Otherwise it forwards to [createJournal] a record whose [id]
    is the identifier minted in the call, whatever [id] the caller
    supplied, whose title is the caller's, and whose content is the text
    [JSON.stringify] gives when the caller's content is a structure and
    the caller's content itself when it is not; a row the call adds to the
    table carries the minted id. *)
Theorem create_journal_gateway (uuid : string) (journal : jsval)
  (now : timestamp) (w : world) :
  (truthy (get_prop journal "title") = false ->
   handle_create_journal uuid journal now w = (Err InvalidJournalData, w))
  /\ (forall ps, journal = JObj ps -> lookup_prop "title" ps = None ->
      handle_create_journal uuid journal now w = (Err InvalidJournalData, w))
  /\ (truthy (get_prop journal "title") = true ->
      exists forwarded,
        handle_create_journal uuid journal now w = createJournal forwarded now w
        /\ get_prop forwarded "id" = JStr uuid
        /\ get_prop forwarded "title" = get_prop journal "title"
        /\ get_prop forwarded "content"
           = (let c := get_prop journal "content" in
              if truthy c && js_type_eqb (typeof c) TObject
              then JStr (JSON_stringify c) else c))
  /\ (forall t info w',
        w = open_world t ->
        handle_create_journal uuid journal now w = (Ok info, w') ->
        exists ttl c,
          w' = open_world (t ++ [mkJournal (SqlText uuid) ttl c now now false])).
Proof.
  assert (Hfalse : truthy (get_prop journal "title") = false ->
                   handle_create_journal uuid journal now w
                   = (Err InvalidJournalData, w)).
  { intros Ht. unfold handle_create_journal. rewrite Ht.
    cbn [negb]. now rewrite orb_true_r. }
  assert (Hfwd : truthy (get_prop journal "title") = true ->
      exists forwarded,
        handle_create_journal uuid journal now w = createJournal forwarded now w
        /\ get_prop forwarded "id" = JStr uuid
        /\ get_prop forwarded "title" = get_prop journal "title"
        /\ get_prop forwarded "content"
           = (let c := get_prop journal "content" in
              if truthy c && js_type_eqb (typeof c) TObject
              then JStr (JSON_stringify c) else c)).
  { intros Ht. destruct (truthy_prop_is_object _ _ Ht) as [ps ->].
    exists (JObj (stringify_content (assign_prop "id" (JStr uuid) ps))).
    split; [now apply handle_create_journal_forwards|].
    split; [|split].
    - cbn [get_prop]. rewrite stringify_content_other by discriminate.
      now rewrite lookup_assign_same.
    - cbn [get_prop]. rewrite stringify_content_other by discriminate.
      now rewrite lookup_assign_other by discriminate.
    - rewrite stringify_content_content. cbv zeta.
      now rewrite !(get_assign_other "id" "content") by discriminate. }
  split; [exact Hfalse|]. split; [|split; [exact Hfwd|]].
  - intros ps -> Hnone. apply Hfalse. cbn [get_prop]. now rewrite Hnone.
  - intros t info w' -> Hrun.
    destruct (truthy (get_prop journal "title")) eqn:Ht.
    + destruct (Hfwd eq_refl) as (fw & Hcall & Hid & _).
      rewrite Hcall in Hrun. clear Hcall Hfalse Hfwd.
      unfold createJournal, with_table, open_world in Hrun. cbn in Hrun.
      destruct (bind_journal fw) as [p|e] eqn:Hb; [|discriminate].
      assert (Hp : p_id p = SqlText uuid).
      { destruct fw as [| | | | |qs]; try discriminate.
        cbn [bind_journal get_prop] in Hb, Hid. unfold bind_named in Hb.
        destruct (lookup_prop "id" qs) as [x|]; [|discriminate].
        subst x. cbn [bind_value] in Hb.
        destruct (lookup_prop "title" qs) as [y|]; [|discriminate].
        destruct (bind_value y); [|discriminate].
        destruct (lookup_prop "content" qs) as [z|]; [|discriminate].
        destruct (bind_value z); [|discriminate].
        injection Hb as <-. reflexivity. }
      unfold sql_insert in Hrun. rewrite Hp in Hrun.
      destruct (p_title p) as [|ttl]; [discriminate|].
      destruct (existsb (has_id (SqlText uuid)) t); [discriminate|].
      injection Hrun as _ <-. now exists ttl, (p_content p).
    + rewrite (Hfalse eq_refl) in Hrun. discriminate.
Qed.

(** ** The read handlers *)

Lemma handle_get_journal_inv (i : jsval) (w w' : world) (j : journal_obj) :
  handle_get_journal i w = (Ok (Some j), w') ->
  exists r, getJournalById i w = (Ok (Some r), w') /\ j = parse_content (row_object r).
Proof.
  unfold handle_get_journal. destruct (truthy i); cbn [negb]; [|discriminate].
  unfold bind, ret. destruct (getJournalById i w) as [[o|e] w1]; [|discriminate].
  destruct o as [r|]; cbn [option_map]; [|discriminate].
  intros H. injection H as <- <-. now exists r.
Qed.

Lemma handle_get_all_journals_inv (w w' : world) (js : list journal_obj) :
  handle_get_all_journals w = (Ok js, w') ->
  exists rows,
    getAllJournals w = (Ok rows, w')
    /\ js = map (fun r => parse_content (row_object r)) rows.
Proof.
  unfold handle_get_all_journals, bind, ret.
  destruct (getAllJournals w) as [[rows|e] w1]; [|discriminate].
  intros H. injection H as <- <-. now exists rows.
Qed.

Lemma parse_content_null (r : row) :
  content r = SqlNull -> parse_content (row_object r) = row_object r.
Proof. intros H. unfold parse_content, row_object. cbn. now rewrite H. Qed.

Lemma parse_content_empty (r : row) :
  content r = SqlText "" -> parse_content (row_object r) = row_object r.
Proof. intros H. unfold parse_content, row_object. cbn. now rewrite H. Qed.

Lemma parse_content_text (r : row) (txt : string) :
  content r = SqlText txt -> txt <> "" ->
  content (parse_content (row_object r))
  = match JSON_parse txt with
    | Some v => v
    | None => default_content
    end.
Proof.
  intros H Hne. unfold parse_content, row_object. cbn. rewrite H. cbn.
  destruct (String.eqb txt "") eqn:E.
  - apply String.eqb_eq in E. contradiction.
  - reflexivity.
Qed.

Lemma handle_get_journal_open (t : table) (i : jsval) (v : sqlval) :
  truthy i = true ->
  bind_id i = Ok v ->
  handle_get_journal i (open_world t)
  = (Ok (option_map (fun r => parse_content (row_object r)) (sql_select_by_id v t)),
     open_world t).
Proof.
  intros Ht Hb. unfold handle_get_journal. rewrite Ht. cbn [negb].
  unfold bind, ret, getJournalById, with_table, open_world. cbn.
  now rewrite Hb.
Qed.

Lemma handle_get_all_journals_open (t : table) :
  handle_get_all_journals (open_world t)
  = (Ok (map (fun r => parse_content (row_object r)) (sql_select_all t)),
     open_world t).
Proof. reflexivity. Qed.

(** C10. On an initialized store the read handlers pass a content that
    is NULL or the empty text through as stored, whatever [JSON.parse]
    does: get-journal returns the row it finds with content [null] or the
    empty string, get-all-journals returns every such row of the table
    with content [null] or the empty string, and neither value is the
    empty structure; [JSON.parse] is consulted for the contents that are
    non-empty texts. *)
Theorem empty_content_is_returned_as_stored (t : table) :
  (forall i v r,
      truthy i = true -> bind_id i = Ok v ->
      sql_select_by_id v t = Some r ->
      exists j,
        handle_get_journal i (open_world t) = (Ok (Some j), open_world t)
        /\ (content r = SqlNull -> j = row_object r /\ content j = JNull)
        /\ (content r = SqlText "" -> j = row_object r /\ content j = JStr "")
        /\ (forall txt, content r = SqlText txt -> txt <> "" ->
            content j = match JSON_parse txt with
                        | Some v => v
                        | None => default_content
                        end))
  /\ (exists js,
        handle_get_all_journals (open_world t) = (Ok js, open_world t)
        /\ Forall2 (fun r j =>
                      (content r = SqlNull -> j = row_object r /\ content j = JNull)
                      /\ (content r = SqlText "" ->
                          j = row_object r /\ content j = JStr ""))
                   (sql_select_all t) js)
  /\ JNull <> default_content
  /\ JStr "" <> default_content.
Proof.
  split; [|split; [|split; discriminate]].
  - intros i v r Ht Hb Hr. exists (parse_content (row_object r)).
    split; [|split; [|split]].
    + rewrite (handle_get_journal_open t i v Ht Hb), Hr. reflexivity.
    + intros Hc. rewrite (parse_content_null r Hc). split; [reflexivity|].
      cbn. now rewrite Hc.
    + intros Hc. rewrite (parse_content_empty r Hc). split; [reflexivity|].
      cbn. now rewrite Hc.
    + intros txt Hc Hne. now apply parse_content_text.
  - eexists. split; [apply handle_get_all_journals_open|].
    induction (sql_select_all t) as [|r rows IH]; cbn [map]; constructor; [|exact IH].
    split; intros Hc.
    + rewrite (parse_content_null r Hc). split; [reflexivity|]. cbn. now rewrite Hc.
    + rewrite (parse_content_empty r Hc). split; [reflexivity|]. cbn. now rewrite Hc.
Qed.

(** ** Content written and read back *)

Section Lawful.
Context {L : JSONLaws J}.

Lemma parse_content_id (j : journal_obj) :
  id (parse_content j) = id j.
Proof.
  unfold parse_content. destruct (content j); try reflexivity.
  now destruct (truthy (JStr s)).
Qed.

Lemma stringify_not_empty (c : content_structure) :
  JSON_stringify (content_to_js c) <> "".
Proof.
  intros H. pose proof (JSON_parse_stringify c) as Hp.
  rewrite H, JSON_parse_empty in Hp. discriminate.
Qed.

Lemma parse_content_stored (r : row)
  (c : content_structure) :
  content r = SqlText (JSON_stringify (content_to_js c)) ->
  content (parse_content (row_object r)) = content_to_js c.
Proof.
  intros H. rewrite (parse_content_text r _ H (stringify_not_empty c)).
  now rewrite JSON_parse_stringify.
Qed.

Lemma reads_back_stored (t : table) (i : string)
  (c : content_structure) :
  i <> "" ->
  (exists r, In r t /\ id r = SqlText i) ->
  (forall r, In r t -> id r = SqlText i ->
             content r = SqlText (JSON_stringify (content_to_js c))) ->
  reads_back t i (content_to_js c).
Proof.
  intros Hi (r0 & Hin0 & Hid0) Hall. split.
  - assert (Ht : truthy (JStr i) = true).
    { cbn. destruct (String.eqb i "") eqn:E; [|reflexivity].
      apply String.eqb_eq in E. contradiction. }
    rewrite (handle_get_journal_open t (JStr i) (SqlText i) Ht eq_refl).
    unfold sql_select_by_id.
    destruct (find (has_id (SqlText i)) t) as [r|] eqn:E.
    + apply find_some in E. destruct E as [Hin Hid].
      apply sql_eq_text in Hid.
      exists (parse_content (row_object r)). split; [reflexivity|].
      split; [now rewrite parse_content_id|].
      apply parse_content_stored. now apply Hall.
    + pose proof (find_none _ _ E r0 Hin0) as Hno.
      unfold has_id in Hno. rewrite Hid0 in Hno. cbn in Hno.
      rewrite String.eqb_refl in Hno. discriminate.
  - eexists. split; [apply handle_get_all_journals_open|]. split.
    + exists (parse_content (row_object r0)). split.
      * apply in_map_iff. exists r0. split; [reflexivity|].
        eapply Permutation_in; [apply order_by_perm|exact Hin0].
      * now rewrite parse_content_id.
    + intros j Hj Hid. apply in_map_iff in Hj. destruct Hj as (r & <- & Hr).
      rewrite parse_content_id in Hid.
      apply parse_content_stored. apply Hall; [|exact Hid].
      eapply Permutation_in; [apply Permutation_sym, order_by_perm|exact Hr].
Qed.

Lemma truthy_content_to_js (c : content_structure) :
  truthy (content_to_js c) && js_type_eqb (typeof (content_to_js c)) TObject = true.
Proof. reflexivity. Qed.

Lemma bind_journal_forwarded (ps : list (string * jsval))
  (i ttl : string) (c : content_structure) :
  lookup_prop "id" ps = Some (JStr i) ->
  lookup_prop "title" ps = Some (JStr ttl) ->
  lookup_prop "content" ps = Some (content_to_js c) ->
  bind_journal (JObj (stringify_content ps))
  = Ok (mkParams (SqlText i) (SqlText ttl)
          (SqlText (JSON_stringify (content_to_js c)))).
Proof.
  intros Hi Ht Hc. cbn [bind_journal]. unfold bind_named.
  rewrite !stringify_content_other by discriminate. rewrite Hi, Ht.
  pose proof (stringify_content_content ps) as H. cbv zeta in H.
  cbn [get_prop] in H. rewrite Hc in H. rewrite truthy_content_to_js in H.
  destruct (lookup_prop "content" (stringify_content ps)) as [x|];
    [subst x|discriminate].
  reflexivity.
Qed.

Lemma create_then_read (t : table)
  (c : content_structure) (now : timestamp) (uuid ttl : string)
  (ps : list (string * jsval)) :
  uuid <> "" -> ttl <> "" ->
  (forall r, In r t -> id r <> SqlText uuid) ->
  lookup_prop "title" ps = Some (JStr ttl) ->
  lookup_prop "content" ps = Some (content_to_js c) ->
  exists t',
    handle_create_journal uuid (JObj ps) now (open_world t)
    = (Ok (mkRunInfo 1), open_world t')
    /\ reads_back t' uuid (content_to_js c).
Proof.
  intros Hu Httl Hfresh Ht Hc.
  assert (Htruthy : truthy (get_prop (JObj ps) "title") = true).
  { cbn [get_prop]. rewrite Ht. cbn.
    destruct (String.eqb ttl "") eqn:E; [|reflexivity].
    apply String.eqb_eq in E. contradiction. }
  rewrite (handle_create_journal_forwards uuid ps now _ Htruthy).
  unfold createJournal. rewrite with_table_open.
  rewrite (bind_journal_forwarded _ uuid ttl c).
  2: apply lookup_assign_same.
  2: now rewrite lookup_assign_other by discriminate.
  2: now rewrite lookup_assign_other by discriminate.
  unfold sql_insert. cbn [p_title p_id p_content].
  pose proof (absent_has_id t uuid Hfresh) as Hno.
  replace (existsb (has_id (SqlText uuid)) t) with false.
  2:{ symmetry. destruct (existsb (has_id (SqlText uuid)) t) eqn:E; [|reflexivity].
      apply existsb_exists in E. destruct E as (r & Hr & Hid).
      rewrite (Hno r Hr) in Hid. discriminate. }
  eexists. split; [reflexivity|].
  apply reads_back_stored; [exact Hu| |].
  - eexists. split; [apply in_or_app; right; now left|reflexivity].
  - intros r Hr Hid. apply in_app_or in Hr. destruct Hr as [Hr|[<-|[]]].
    + now apply Hfresh in Hr.
    + reflexivity.
Qed.

Lemma update_then_read (t : table)
  (c : content_structure) (now : timestamp) (i ttl : string)
  (ps : list (string * jsval)) :
  i <> "" ->
  (exists r, In r t /\ id r = SqlText i) ->
  lookup_prop "id" ps = Some (JStr i) ->
  lookup_prop "title" ps = Some (JStr ttl) ->
  lookup_prop "content" ps = Some (content_to_js c) ->
  exists t' n,
    handle_update_journal (JObj ps) now (open_world t) = (Ok n, open_world t')
    /\ reads_back t' i (content_to_js c).
Proof.
  intros Hi (r0 & Hin0 & Hid0) Hid Ht Hc.
  unfold handle_update_journal. cbn [truthy negb orb get_prop spread].
  rewrite Hid. cbn [truthy].
  destruct (String.eqb i "") eqn:E; [apply String.eqb_eq in E; contradiction|].
  cbn [negb]. unfold updateJournal. rewrite with_table_open.
  rewrite (bind_journal_forwarded _ i ttl c Hid Ht Hc).
  unfold sql_update. cbn [p_title p_id p_content].
  destruct (filter (has_id (SqlText i)) t) as [|hit hits] eqn:Ef.
  { assert (Hf : In r0 (filter (has_id (SqlText i)) t)).
    { apply filter_In. split; [exact Hin0|]. unfold has_id. rewrite Hid0.
      cbn. apply String.eqb_refl. }
    rewrite Ef in Hf. destruct Hf. }
  do 2 eexists. split; [reflexivity|].
  apply reads_back_stored; [exact Hi| |].
  - eexists. split.
    + apply in_map_iff. exists r0. split; [reflexivity|exact Hin0].
    + unfold has_id. rewrite Hid0. cbn. rewrite String.eqb_refl. reflexivity.
  - intros r Hr Hidr. apply in_map_iff in Hr. destruct Hr as (r1 & <- & Hr1).
    destruct (has_id (SqlText i) r1) eqn:Eh; [reflexivity|].
    unfold has_id in Eh. rewrite Hidr in Eh. cbn in Eh.
    rewrite String.eqb_refl in Eh. discriminate.
Qed.

Lemma parse_content_fallback (r : row) (txt : string) :
  txt <> "" -> JSON_parse txt = None -> content r = SqlText txt ->
  content (parse_content (row_object r)) = default_content.
Proof.
  intros Hne Hp Hc. rewrite (parse_content_text r txt Hc Hne). now rewrite Hp.
Qed.

(** C4, as the handlers have it.  A content structure written through
    create-journal (under a fresh, non-empty minted id and a non-empty
    title) or through update-journal (for a stored journal, with a title
    that is a text) is what get-journal and get-all-journals then return as
    the content of that journal.  A stored content that is a non-empty text
    which [JSON.parse] rejects is returned as the empty structure
    [{bullets: [], images: [], videos: []}], by both read handlers and
    without failing.  (The empty text is returned as it is stored.) *)
Theorem content_round_trip (t : table) (now : timestamp) :
  (forall (c : content_structure) (uuid ttl : string) (ps : list (string * jsval)),
      uuid <> "" -> ttl <> "" ->
      (forall r, In r t -> id r <> SqlText uuid) ->
      lookup_prop "title" ps = Some (JStr ttl) ->
      lookup_prop "content" ps = Some (content_to_js c) ->
      exists t',
        handle_create_journal uuid (JObj ps) now (open_world t)
        = (Ok (mkRunInfo 1), open_world t')
        /\ reads_back t' uuid (content_to_js c))
  /\ (forall (c : content_structure) (i ttl : string) (ps : list (string * jsval)),
        i <> "" ->
        (exists r, In r t /\ id r = SqlText i) ->
        lookup_prop "id" ps = Some (JStr i) ->
        lookup_prop "title" ps = Some (JStr ttl) ->
        lookup_prop "content" ps = Some (content_to_js c) ->
        exists t' n,
          handle_update_journal (JObj ps) now (open_world t) = (Ok n, open_world t')
          /\ reads_back t' i (content_to_js c))
  /\ (forall txt : string,
        txt <> "" -> JSON_parse txt = None ->
        (forall i v r,
            truthy i = true -> bind_id i = Ok v ->
            sql_select_by_id v t = Some r -> content r = SqlText txt ->
            exists j,
              handle_get_journal i (open_world t) = (Ok (Some j), open_world t)
              /\ content j = default_content)
        /\ (exists js,
              handle_get_all_journals (open_world t) = (Ok js, open_world t)
              /\ Forall2 (fun r j => content r = SqlText txt ->
                                     content j = default_content)
                         (sql_select_all t) js)).
Proof.
  split; [|split].
  - intros c uuid ttl ps. now apply create_then_read.
  - intros c i ttl ps. now apply update_then_read.
  - intros txt Hne Hp. split.
    + intros i v r Ht Hb Hr Hc. eexists. split.
      * rewrite (handle_get_journal_open t i v Ht Hb), Hr. reflexivity.
      * now apply (parse_content_fallback r txt).
    + eexists. split; [apply handle_get_all_journals_open|].
      induction (sql_select_all t) as [|r rows IH]; cbn [map]; constructor;
        [|exact IH].
      intros Hc. now apply (parse_content_fallback r txt).
Qed.

End Lawful.

End Gateway.

(** ** The handlers over the JSON implementation *)

Lemma create_journal_gateway_witness :
  let J := json_model in
  let journal :=
    JObj [("id", JStr "chosen by the caller"); ("title", JStr "Day 1");
          ("content", content_to_js (mkContent ["woke up"] [] []))] in
  truthy (get_prop journal "title") = true
  /\ exists forwarded,
      handle_create_journal "0b5c" journal 100%Z (open_world [])
      = createJournal forwarded 100%Z (open_world [])
      /\ get_prop forwarded "id" = JStr "0b5c"
      /\ get_prop forwarded "title" = get_prop journal "title"
      /\ get_prop forwarded "content"
         = (let c := get_prop journal "content" in
            if truthy c && js_type_eqb (typeof c) TObject
            then JStr (JSON_stringify c) else c).
Proof.
  intros J journal. split; [reflexivity|].
  apply (@create_journal_gateway J "0b5c" journal 100%Z (open_world [])).
  reflexivity.
Defined.

Lemma empty_content_is_returned_as_stored_witness :
  let J := json_model in
  let r := mkJournal (SqlText "b") "empty content" (SqlText "") 100%Z 200%Z false in
  truthy (JStr "b") = true
  /\ bind_id (JStr "b") = Ok (SqlText "b")
  /\ sql_select_by_id (SqlText "b") blank_rows = Some r
  /\ exists j,
      handle_get_journal (JStr "b") (open_world blank_rows)
      = (Ok (Some j), open_world blank_rows)
      /\ (content r = SqlNull -> j = row_object r /\ content j = JNull)
      /\ (content r = SqlText "" -> j = row_object r /\ content j = JStr "")
      /\ (forall txt, content r = SqlText txt -> txt <> "" ->
          content j = match JSON_parse txt with
                      | Some v => v
                      | None => default_content
                      end).
Proof.
  intros J r. split; [reflexivity|]. split; [reflexivity|]. split; [reflexivity|].
  apply (proj1 (@empty_content_is_returned_as_stored J blank_rows) (JStr "b")
           (SqlText "b") r); reflexivity.
Defined.

Lemma content_round_trip_witness :
  JSONLaws json_model
  /\ "0b5c" <> ""
  /\ "Day 1" <> ""
  /\ (forall r, In r blank_rows -> id r <> SqlText "0b5c")
  /\ exists t',
      @handle_create_journal json_model "0b5c" day1_request 300%Z
        (open_world blank_rows)
      = (Ok (mkRunInfo 1), open_world t')
      /\ @reads_back json_model t' "0b5c" (content_to_js day1).
Proof.
  assert (Hfresh : forall r, In r blank_rows -> id r <> SqlText "0b5c").
  { intros r [<-|[<-|[]]]; discriminate. }
  split; [exact json_model_laws|].
  split; [discriminate|]. split; [discriminate|]. split; [exact Hfresh|].
  apply (proj1 (@content_round_trip json_model json_model_laws blank_rows 300%Z)
           day1 "0b5c" "Day 1");
    [discriminate | discriminate | exact Hfresh | reflexivity | reflexivity].
Defined.

(** C4 as stated fails on the empty text: it is not JSON, and get-journal
    returns it as the content (the handler tests [journal.content] before
    it parses), not the empty structure. *)
Lemma empty_text_is_not_replaced :
  ~ (forall (t : table) (i txt : string) (r : row),
        i <> "" ->
        sql_select_by_id (SqlText i) t = Some r ->
        content r = SqlText txt ->
        @JSON_parse json_model txt = None ->
        exists j,
          @handle_get_journal json_model (JStr i) (open_world t)
          = (Ok (Some j), open_world t)
          /\ content j = default_content).
Proof.
  intros H.
  destruct (H blank_rows "b" ""
              (mkJournal (SqlText "b") "empty content" (SqlText "") 100%Z 200%Z false))
    as (j & Hj & Hc); try reflexivity; try discriminate.
  vm_compute in Hj. injection Hj as <-. discriminate Hc.
Qed.

(** ** Scenarios *)

(** A journal created from [day1_request] comes back from get-journal
    under the minted id with the structure that was written. *)
Example day1_scenario :
  let w1 := snd (@handle_create_journal json_model "0b5c" day1_request 300%Z
                   (open_world [])) in
  fst (@handle_get_journal json_model (JStr "0b5c") w1)
  = Ok (Some (mkJournal (SqlText "0b5c") "Day 1" (content_to_js day1)
                        300%Z 300%Z false)).
Proof. vm_compute. reflexivity. Qed.

(** get-all-journals lists the most recently touched journal first. *)
Example newest_first_scenario :
  fst (@handle_get_all_journals json_model (open_world blank_rows))
  = Ok [mkJournal (SqlText "b") "empty content" (JStr "") 100%Z 200%Z false;
        mkJournal (SqlText "a") "no content" JNull 100%Z 100%Z false].
Proof. vm_compute. reflexivity. Qed.

(** A journal that was deleted is no longer found. *)
Example delete_scenario :
  let w1 := snd (handle_delete_journal (JStr "a") (open_world blank_rows)) in
  fst (handle_delete_journal (JStr "a") (open_world blank_rows)) = Ok (mkRunInfo 1)
  /\ fst (@handle_get_journal json_model (JStr "a") w1) = Ok None.
Proof. vm_compute. split; reflexivity. Qed.

(** A stored text that is not JSON is read as the empty structure. *)
Example malformed_scenario :
  let t := [mkJournal (SqlText "a") "Day 1" (SqlText "{bullets:") 100%Z 100%Z false] in
  fst (@handle_get_journal json_model (JStr "a") (open_world t))
  = Ok (Some (mkJournal (SqlText "a") "Day 1" default_content 100%Z 100%Z false)).
Proof. vm_compute. reflexivity. Qed.

(** * More of the store and of the gateway *)

(** ** More on the statements *)

Lemma find_head_filter {A : Type} (f : A -> bool) (l : list A) :
  find f l = hd_error (filter f l).
Proof.
  induction l as [|a l IH]; cbn [find filter]; [reflexivity|].
  now destruct (f a).
Qed.

Lemma find_map_same {A : Type} (f : A -> bool) (g : A -> A) (l : list A) :
  (forall x, f (g x) = f x) ->
  find f (map g l) = option_map g (find f l).
Proof.
  intros H. induction l as [|a l IH]; cbn [find map]; [reflexivity|].
  rewrite H. now destruct (f a).
Qed.

Lemma filter_map_same {A : Type} (f : A -> bool) (g : A -> A) (l : list A) :
  (forall x, f (g x) = f x) ->
  filter f (map g l) = map g (filter f l).
Proof.
  intros H. induction l as [|a l IH]; cbn [filter map]; [reflexivity|].
  rewrite H. destruct (f a); cbn [map]; now rewrite IH.
Qed.

Lemma length_filter_filter {A : Type} (f g : A -> bool) (l : list A) :
  length (filter f (filter g l)) <= length (filter f l).
Proof.
  induction l as [|a l IH]; cbn [filter]; [lia|].
  destruct (g a); cbn [filter]; destruct (f a); cbn [length]; lia.
Qed.

Lemma has_id_text (i : string) (r : row) :
  has_id (SqlText i) r = true <-> id r = SqlText i.
Proof. unfold has_id. apply sql_eq_text. Qed.

Lemma only_row_with_id (t : table) (r : row) (i : string) :
  ids_unique t -> In r t -> id r = SqlText i ->
  filter (has_id (SqlText i)) t = [r].
Proof.
  intros Hu Hin Hid. specialize (Hu i).
  assert (Hf : In r (filter (has_id (SqlText i)) t)).
  { apply filter_In. split; [exact Hin|]. now apply has_id_text. }
  destruct (filter (has_id (SqlText i)) t) as [|a [|b l]]; cbn in *.
  - destruct Hf.
  - destruct Hf as [->|[]]. reflexivity.
  - lia.
Qed.

Lemma getJournalById_open (t : table) (i : string) :
  getJournalById (JStr i) (open_world t)
  = (Ok (sql_select_by_id (SqlText i) t), open_world t).
Proof. reflexivity. Qed.

Lemma select_fresh_row (t : table) (i ttl : string) (c : sqlval) (a b : timestamp)
  (f : bool) :
  (forall r, In r t -> id r <> SqlText i) ->
  sql_select_by_id (SqlText i) (t ++ [mkJournal (SqlText i) ttl c a b f])
  = Some (mkJournal (SqlText i) ttl c a b f).
Proof.
  intros Hfresh. unfold sql_select_by_id. rewrite find_head_filter, filter_app.
  rewrite (filter_none _ _ (absent_has_id t i Hfresh)). cbn [app filter].
  now rewrite has_id_refl.
Qed.

Lemma createJournal_open (t : table) (journal : jsval) (p : params)
  (i ttl : string) (now : timestamp) :
  bind_journal journal = Ok p ->
  p_id p = SqlText i ->
  p_title p = SqlText ttl ->
  (forall r, In r t -> id r <> SqlText i) ->
  createJournal journal now (open_world t)
  = (Ok (mkRunInfo 1),
     open_world (t ++ [mkJournal (SqlText i) ttl (p_content p) now now false])).
Proof.
  intros Hb Hi Ht Hfresh. unfold createJournal. rewrite with_table_open, Hb.
  unfold sql_insert. rewrite Ht, Hi.
  replace (existsb (has_id (SqlText i)) t) with false; [reflexivity|].
  symmetry. destruct (existsb (has_id (SqlText i)) t) eqn:E; [|reflexivity].
  apply existsb_exists in E. destruct E as (r & Hr & Hid).
  rewrite (absent_has_id t i Hfresh r Hr) in Hid. discriminate.
Qed.

(** X1. A journal created under an id no row carries is what
    [getJournalById] then returns for that id: the record's title and
    content, both timestamps at the time of the call, not published; the
    rows that were there are left as they were. *)
Theorem createJournal_then_getJournalById (t : table) (journal : jsval)
  (p : params) (i ttl : string) (now : timestamp) :
  bind_journal journal = Ok p ->
  p_id p = SqlText i ->
  p_title p = SqlText ttl ->
  (forall r, In r t -> id r <> SqlText i) ->
  let created := mkJournal (SqlText i) ttl (p_content p) now now false in
  createJournal journal now (open_world t)
  = (Ok (mkRunInfo 1), open_world (t ++ [created]))
  /\ getJournalById (JStr i) (open_world (t ++ [created]))
     = (Ok (Some created), open_world (t ++ [created])).
Proof.
  intros Hb Hi Ht Hfresh created. split.
  - now apply createJournal_open.
  - rewrite getJournalById_open. unfold created. now rewrite select_fresh_row.
Qed.

Lemma createJournal_then_getJournalById_witness :
  let j := JObj [("id", JStr "b"); ("title", JStr "Day 2"); ("content", JNull)] in
  let p := mkParams (SqlText "b") (SqlText "Day 2") SqlNull in
  let created := mkJournal (SqlText "b") "Day 2" SqlNull 300%Z 300%Z false in
  bind_journal j = Ok p
  /\ (forall r, In r [sample_row] -> id r <> SqlText "b")
  /\ createJournal j 300%Z (open_world [sample_row])
     = (Ok (mkRunInfo 1), open_world ([sample_row] ++ [created]))
  /\ getJournalById (JStr "b") (open_world ([sample_row] ++ [created]))
     = (Ok (Some created), open_world ([sample_row] ++ [created])).
Proof.
  intros j p created.
  assert (Hfresh : forall r, In r [sample_row] -> id r <> SqlText "b").
  { intros r [<-|[]]. discriminate. }
  split; [reflexivity|]. split; [exact Hfresh|].
  apply (createJournal_then_getJournalById [sample_row] j p "b" "Day 2" 300%Z);
    [reflexivity | reflexivity | reflexivity | exact Hfresh].
Defined.

(** X2. [createJournal] with a record the statement can bind, whose title
    is a text and whose id a row already carries, fails on the primary key
    and leaves the store as it was, whatever the content of the record. *)
Theorem createJournal_rejects_duplicate_id (t : table) (journal : jsval)
  (p : params) (i ttl : string) (now : timestamp) :
  bind_journal journal = Ok p ->
  p_id p = SqlText i ->
  p_title p = SqlText ttl ->
  (exists r, In r t /\ id r = SqlText i) ->
  createJournal journal now (open_world t) = (Err PrimaryKeyError, open_world t).
Proof.
  intros Hb Hi Ht (r & Hr & Hid). unfold createJournal.
  rewrite with_table_open, Hb. unfold sql_insert. rewrite Hi, Ht.
  replace (existsb (has_id (SqlText i)) t) with true; [reflexivity|].
  symmetry. apply existsb_exists. exists r. split; [exact Hr|].
  now apply has_id_text.
Qed.

Lemma createJournal_rejects_duplicate_id_witness :
  bind_journal sample_record
  = Ok (mkParams (SqlText "a") (SqlText "Day 1, evening") (SqlText "{}"))
  /\ (exists r, In r [sample_row] /\ id r = SqlText "a")
  /\ createJournal sample_record 300%Z (open_world [sample_row])
     = (Err PrimaryKeyError, open_world [sample_row]).
Proof.
  assert (Hex : exists r, In r [sample_row] /\ id r = SqlText "a").
  { exists sample_row. split; [now left | reflexivity]. }
  split; [reflexivity|]. split; [exact Hex|].
  apply (createJournal_rejects_duplicate_id [sample_row] sample_record
           (mkParams (SqlText "a") (SqlText "Day 1, evening") (SqlText "{}"))
           "a" "Day 1, evening");
    [reflexivity | reflexivity | reflexivity | exact Hex].
Defined.

(** X3. A record whose title is [null] is refused by the NOT NULL column
    wherever a row would be written: [createJournal] and [autoSaveJournal]
    fail, [updateJournal] fails when a row has the record's id and changes
    nothing, without an error, when none has; the store is left as it was
    in every case. *)
Theorem null_title_is_refused (t : table) (journal : jsval) (p : params)
  (now : timestamp) :
  bind_journal journal = Ok p ->
  p_title p = SqlNull ->
  createJournal journal now (open_world t) = (Err ConstraintError, open_world t)
  /\ autoSaveJournal journal now (open_world t) = (Err ConstraintError, open_world t)
  /\ (existsb (has_id (p_id p)) t = true ->
      updateJournal journal now (open_world t) = (Err ConstraintError, open_world t))
  /\ (existsb (has_id (p_id p)) t = false ->
      updateJournal journal now (open_world t) = (Ok (mkRunInfo 0), open_world t)).
Proof.
  intros Hb Ht. split; [|split; [|split]].
  - unfold createJournal. rewrite with_table_open, Hb.
    unfold sql_insert. now rewrite Ht.
  - unfold autoSaveJournal. rewrite with_table_open, Hb.
    unfold sql_insert_or_replace. now rewrite Ht.
  - intros Hex. unfold updateJournal. rewrite with_table_open, Hb.
    unfold sql_update.
    destruct (filter (has_id (p_id p)) t) as [|hit hits] eqn:Ef.
    + apply existsb_exists in Hex. destruct Hex as (r & Hr & Hid).
      assert (Hf : In r (filter (has_id (p_id p)) t)) by (apply filter_In; tauto).
      rewrite Ef in Hf. destruct Hf.
    + now rewrite Ht.
  - intros Hex. unfold updateJournal. rewrite with_table_open, Hb.
    unfold sql_update. rewrite filter_none; [reflexivity|].
    intros r Hr. destruct (has_id (p_id p) r) eqn:E; [|reflexivity].
    rewrite <- Hex. symmetry. apply existsb_exists. now exists r.
Qed.

Lemma null_title_is_refused_witness :
  let j := JObj [("id", JStr "a"); ("title", JNull); ("content", JStr "{}")] in
  let p := mkParams (SqlText "a") SqlNull (SqlText "{}") in
  bind_journal j = Ok p
  /\ p_title p = SqlNull
  /\ createJournal j 300%Z (open_world [sample_row])
     = (Err ConstraintError, open_world [sample_row])
  /\ autoSaveJournal j 300%Z (open_world [sample_row])
     = (Err ConstraintError, open_world [sample_row])
  /\ (existsb (has_id (p_id p)) [sample_row] = true ->
      updateJournal j 300%Z (open_world [sample_row])
      = (Err ConstraintError, open_world [sample_row]))
  /\ (existsb (has_id (p_id p)) [sample_row] = false ->
      updateJournal j 300%Z (open_world [sample_row])
      = (Ok (mkRunInfo 0), open_world [sample_row])).
Proof.
  intros j p. split; [reflexivity|]. split; [reflexivity|].
  apply (null_title_is_refused [sample_row] j p 300%Z); reflexivity.
Defined.

Lemma has_id_updated (v : sqlval) (ttl : string) (c : sqlval) (now : timestamp)
  (w : sqlval) (r : row) :
  has_id w (if has_id v r
            then mkJournal (id r) ttl c (created_at r) now (is_published r)
            else r)
  = has_id w r.
Proof. now destruct (has_id v r). Qed.

Lemma updateJournal_open (t : table) (journal : jsval) (p : params)
  (ttl : string) (now : timestamp) (hit : row) (hits : list row) :
  bind_journal journal = Ok p ->
  p_title p = SqlText ttl ->
  filter (has_id (p_id p)) t = hit :: hits ->
  updateJournal journal now (open_world t)
  = (Ok (mkRunInfo (S (length hits))),
     open_world
       (map (fun r => if has_id (p_id p) r
                      then mkJournal (id r) ttl (p_content p)
                                     (created_at r) now (is_published r)
                      else r) t)).
Proof.
  intros Hb Ht Hf. unfold updateJournal. rewrite with_table_open, Hb.
  unfold sql_update. now rewrite Hf, Ht.
Qed.

(** X4. [updateJournal] on a table with unique ids, for a record whose id a
    row [r] carries and whose title is a text, changes one row:
    [getJournalById] then returns [r] with the record's title and content
    and the time of the call as [updated_at], its [created_at] and
    [is_published] kept; the table has as many rows as before and the rows
    with other ids are still in it. *)
Theorem updateJournal_updates_the_row (t : table) (journal : jsval) (p : params)
  (i ttl : string) (now : timestamp) (r : row) :
  bind_journal journal = Ok p ->
  p_id p = SqlText i ->
  p_title p = SqlText ttl ->
  ids_unique t ->
  In r t -> id r = SqlText i ->
  exists t',
    updateJournal journal now (open_world t) = (Ok (mkRunInfo 1), open_world t')
    /\ getJournalById (JStr i) (open_world t')
       = (Ok (Some (mkJournal (SqlText i) ttl (p_content p)
                              (created_at r) now (is_published r))),
          open_world t')
    /\ length t' = length t
    /\ (forall r', In r' t -> id r' <> SqlText i -> In r' t').
Proof.
  intros Hb Hi Ht Hu Hin Hid.
  pose proof (only_row_with_id t r i Hu Hin Hid) as Hf.
  eexists. split; [|split; [|split]].
  - rewrite (updateJournal_open t journal p ttl now r []); [reflexivity|assumption..|].
    now rewrite Hi.
  - rewrite getJournalById_open. unfold sql_select_by_id.
    rewrite Hi, find_map_same by (intros; apply has_id_updated).
    rewrite find_head_filter, Hf. cbn [hd_error option_map].
    rewrite (proj2 (has_id_text i r) Hid), Hid. reflexivity.
  - apply length_map.
  - intros r' Hr' Hne. apply in_map_iff. exists r'. split; [|exact Hr'].
    rewrite Hi. destruct (has_id (SqlText i) r') eqn:E; [|reflexivity].
    apply has_id_text in E. contradiction.
Qed.

Lemma sample_table_unique : ids_unique [sample_row].
Proof.
  intros i. cbn [filter].
  destruct (has_id (SqlText i) sample_row); cbn [length]; lia.
Qed.

Lemma updateJournal_updates_the_row_witness :
  let p := mkParams (SqlText "a") (SqlText "Day 1, evening") (SqlText "{}") in
  bind_journal sample_record = Ok p
  /\ ids_unique [sample_row]
  /\ In sample_row [sample_row]
  /\ exists t',
      updateJournal sample_record 200%Z (open_world [sample_row])
      = (Ok (mkRunInfo 1), open_world t')
      /\ getJournalById (JStr "a") (open_world t')
         = (Ok (Some (mkJournal (SqlText "a") "Day 1, evening" (p_content p)
                                (created_at sample_row) 200%Z
                                (is_published sample_row))),
            open_world t')
      /\ length t' = length [sample_row]
      /\ (forall r', In r' [sample_row] -> id r' <> SqlText "a" -> In r' t').
Proof.
  intros p. split; [reflexivity|]. split; [exact sample_table_unique|].
  split; [now left|].
  apply (updateJournal_updates_the_row [sample_row] sample_record p "a"
           "Day 1, evening" 200%Z sample_row);
    [reflexivity | reflexivity | reflexivity | exact sample_table_unique
    | now left | reflexivity].
Defined.

Lemma truthy_text (i : string) : i <> "" -> truthy (JStr i) = true.
Proof.
  intros H. cbn. destruct (String.eqb i "") eqn:E; [|reflexivity].
  apply String.eqb_eq in E. contradiction.
Qed.

(** X5. The delete-journal handler, given a non-empty text as id, removes
    the rows with that id and no other: it reports how many it removed
    (one when ids are unique and a row has the id), get-journal then finds
    no journal under the id, and every row with another id is still in
    the table. *)
Theorem delete_journal_removes_the_row (J : JSON) (t : table) (i : string) :
  i <> "" ->
  exists t',
    handle_delete_journal (JStr i) (open_world t)
    = (Ok (mkRunInfo (length (filter (has_id (SqlText i)) t))), open_world t')
    /\ handle_get_journal (JStr i) (open_world t') = (Ok None, open_world t')
    /\ (forall r, In r t' <-> In r t /\ id r <> SqlText i)
    /\ (ids_unique t -> (exists r, In r t /\ id r = SqlText i) ->
        length (filter (has_id (SqlText i)) t) = 1 /\ S (length t') = length t).
Proof.
  intros Hi. pose proof (truthy_text i Hi) as Ht.
  exists (filter (fun r => negb (has_id (SqlText i) r)) t).
  split; [|split; [|split]].
  - unfold handle_delete_journal. rewrite Ht. reflexivity.
  - rewrite (handle_get_journal_open _ (JStr i) (SqlText i) Ht eq_refl).
    unfold sql_select_by_id. now rewrite find_head_filter, filter_filter_negb.
  - intros r. rewrite filter_In. split; intros [Hr Hid]; split; try exact Hr.
    + intros E. apply has_id_text in E. rewrite E in Hid. discriminate.
    + destruct (has_id (SqlText i) r) eqn:E; [|reflexivity].
      apply has_id_text in E. contradiction.
  - intros Hu (r & Hr & Hid).
    rewrite (only_row_with_id t r i Hu Hr Hid). split; [reflexivity|].
    pose proof (filter_length (has_id (SqlText i)) t) as Hlen.
    rewrite (only_row_with_id t r i Hu Hr Hid) in Hlen. cbn [length] in Hlen.
    lia.
Qed.

Lemma delete_journal_removes_the_row_witness :
  "a" <> ""
  /\ exists t',
      handle_delete_journal (JStr "a") (open_world blank_rows)
      = (Ok (mkRunInfo (length (filter (has_id (SqlText "a")) blank_rows))),
         open_world t')
      /\ @handle_get_journal json_model (JStr "a") (open_world t')
         = (Ok None, open_world t')
      /\ (forall r, In r t' <-> In r blank_rows /\ id r <> SqlText "a")
      /\ (ids_unique blank_rows ->
          (exists r, In r blank_rows /\ id r = SqlText "a") ->
          length (filter (has_id (SqlText "a")) blank_rows) = 1
          /\ S (length t') = length blank_rows).
Proof.
  split; [discriminate|].
  apply (delete_journal_removes_the_row json_model blank_rows "a"). discriminate.
Defined.

(** ** Invariants of the table *)

Lemma ids_unique_insert (t : table) (r : row) :
  ids_unique t ->
  existsb (has_id (id r)) t = false ->
  ids_unique (t ++ [r]).
Proof.
  intros Hu Hex i. rewrite filter_app, length_app. cbn [filter].
  destruct (has_id (SqlText i) r) eqn:E; cbn [length]; [|specialize (Hu i); lia].
  apply has_id_text in E. rewrite E in Hex.
  rewrite filter_none; [cbn; lia|].
  intros x Hx. destruct (has_id (SqlText i) x) eqn:Ex; [|reflexivity].
  rewrite <- Hex. symmetry. apply existsb_exists. now exists x.
Qed.

Lemma ids_unique_replace (t : table) (r : row) :
  ids_unique t ->
  ids_unique (filter (fun x => negb (has_id (id r) x)) t ++ [r]).
Proof.
  intros Hu i. rewrite filter_app, length_app. cbn [filter].
  destruct (has_id (SqlText i) r) eqn:E; cbn [length].
  - apply has_id_text in E. rewrite E, filter_filter_negb. cbn. lia.
  - pose proof (length_filter_filter (has_id (SqlText i))
                  (fun x => negb (has_id (id r) x)) t).
    specialize (Hu i). lia.
Qed.

(** X6. The store keeps the primary key: if no two rows carry the same
    text as id, none do after a [createJournal], [updateJournal],
    [deleteJournal] or [autoSaveJournal] that succeeds. *)
Theorem ids_unique_preserved (journal i : jsval) (now : timestamp) (t : table) :
  ids_unique t ->
  forall (n : run_info) (w' : world),
    createJournal journal now (open_world t) = (Ok n, w')
    \/ updateJournal journal now (open_world t) = (Ok n, w')
    \/ deleteJournal i (open_world t) = (Ok n, w')
    \/ autoSaveJournal journal now (open_world t) = (Ok n, w') ->
    exists t', w' = open_world t' /\ ids_unique t'.
Proof.
  intros Hu n w' [H|[H|[H|H]]]; run_on_open_world.
  - destruct (bind_journal journal) as [p|e]; [|discriminate].
    unfold sql_insert in H. destruct (p_title p) as [|ttl]; [discriminate|].
    destruct (existsb (has_id (p_id p)) t) eqn:E; [discriminate|].
    injection H as _ <-. eexists. split; [reflexivity|].
    now apply ids_unique_insert.
  - destruct (bind_journal journal) as [p|e]; [|discriminate].
    unfold sql_update in H.
    destruct (filter (has_id (p_id p)) t) as [|hit hits].
    + injection H as _ <-. now exists t.
    + destruct (p_title p) as [|ttl]; [discriminate|].
      injection H as _ <-. eexists. split; [reflexivity|].
      intros k. rewrite filter_map_same by (intros; apply has_id_updated).
      rewrite length_map. apply Hu.
  - destruct (bind_id i) as [v|e]; [|discriminate].
    injection H as _ <-. eexists. split; [reflexivity|].
    intros k. cbn [sql_delete snd].
    pose proof (length_filter_filter (has_id (SqlText k))
                  (fun x => negb (has_id v x)) t).
    specialize (Hu k). lia.
  - destruct (bind_journal journal) as [p|e]; [|discriminate].
    unfold sql_insert_or_replace in H.
    destruct (p_title p) as [|ttl]; [discriminate|].
    injection H as _ <-. eexists. split; [reflexivity|].
    apply (ids_unique_replace t
             (mkJournal (p_id p) ttl (p_content p) now now false) Hu).
Qed.

Lemma ids_unique_preserved_witness :
  ids_unique [sample_row]
  /\ exists t',
      snd (autoSaveJournal sample_record 200%Z (open_world [sample_row]))
      = open_world t'
      /\ ids_unique t'.
Proof.
  split; [exact sample_table_unique|].
  apply (ids_unique_preserved sample_record (JStr "a") 200%Z [sample_row]
           sample_table_unique (mkRunInfo 1)).
  right. right. right. reflexivity.
Defined.

(** X7. With a clock that does not run backwards the timestamps stay in
    order: if every row has [created_at <= updated_at <= now0] and an
    operation succeeds at a time [now >= now0], every row afterwards has
    [created_at <= updated_at <= now]. *)
Theorem well_timed_preserved (journal i : jsval) (now0 now : timestamp) (t : table) :
  well_timed now0 t ->
  (now0 <= now)%Z ->
  forall (n : run_info) (w' : world),
    createJournal journal now (open_world t) = (Ok n, w')
    \/ updateJournal journal now (open_world t) = (Ok n, w')
    \/ deleteJournal i (open_world t) = (Ok n, w')
    \/ autoSaveJournal journal now (open_world t) = (Ok n, w') ->
    exists t', w' = open_world t' /\ well_timed now t'.
Proof.
  unfold well_timed. intros Hw Hle n w' Hop.
  assert (Hw' : Forall (fun r => (created_at r <= updated_at r <= now)%Z) t).
  { eapply Forall_impl; [|exact Hw]. intros r Hr. cbn beta in Hr. lia. }
  clear Hw. destruct Hop as [H|[H|[H|H]]]; run_on_open_world.
  - destruct (bind_journal journal) as [p|e]; [|discriminate].
    unfold sql_insert in H. destruct (p_title p) as [|ttl]; [discriminate|].
    destruct (existsb (has_id (p_id p)) t); [discriminate|].
    injection H as _ <-. eexists. split; [reflexivity|].
    apply Forall_app. split; [exact Hw'|]. constructor; [unfold new_row, sample_row; cbn [created_at updated_at]; lia|constructor].
  - destruct (bind_journal journal) as [p|e]; [|discriminate].
    unfold sql_update in H.
    destruct (filter (has_id (p_id p)) t) as [|hit hits].
    + injection H as _ <-. now exists t.
    + destruct (p_title p) as [|ttl]; [discriminate|].
      injection H as _ <-. eexists. split; [reflexivity|].
      apply Forall_map. eapply Forall_impl; [|exact Hw'].
      intros r Hr. cbn beta in Hr.
      destruct (has_id (p_id p) r); cbn [created_at updated_at]; lia.
  - destruct (bind_id i) as [v|e]; [|discriminate].
    injection H as _ <-. eexists. split; [reflexivity|].
    cbn [sql_delete snd]. apply Forall_forall. intros r Hr.
    apply filter_In in Hr. now apply (proj1 (Forall_forall _ _) Hw').
  - destruct (bind_journal journal) as [p|e]; [|discriminate].
    unfold sql_insert_or_replace in H.
    destruct (p_title p) as [|ttl]; [discriminate|].
    injection H as _ <-. eexists. split; [reflexivity|].
    apply Forall_app. split.
    + apply Forall_forall. intros r Hr. apply filter_In in Hr.
      now apply (proj1 (Forall_forall _ _) Hw').
    + constructor; [unfold new_row, sample_row; cbn [created_at updated_at]; lia|constructor].
Qed.

Lemma well_timed_preserved_witness :
  well_timed 100%Z [sample_row]
  /\ (100 <= 200)%Z
  /\ exists t',
      snd (updateJournal sample_record 200%Z (open_world [sample_row]))
      = open_world t'
      /\ well_timed 200%Z t'.
Proof.
  assert (Hw : well_timed 100%Z [sample_row]).
  { constructor; [unfold new_row, sample_row; cbn [created_at updated_at]; lia|constructor]. }
  assert (Hle : (100 <= 200)%Z) by lia.
  split; [exact Hw|]. split; [exact Hle|].
  apply (well_timed_preserved sample_record (JStr "a") 100%Z 200%Z [sample_row]
           Hw Hle (mkRunInfo 1)).
  right. left. reflexivity.
Defined.

Lemma all_unpublished_preserved_witness :
  all_unpublished [sample_row]
  /\ exists t',
      snd (autoSaveJournal sample_record 200%Z (open_world [sample_row]))
      = open_world t'
      /\ all_unpublished t'.
Proof.
  assert (Hu : all_unpublished [sample_row]).
  { constructor; [reflexivity|constructor]. }
  split; [exact Hu|].
  apply (all_unpublished_preserved sample_record (JStr "a") 200%Z [sample_row]
           Hu (mkRunInfo 1)).
  right. right. right. reflexivity.
Defined.

(** ** The journal written last *)

Lemma newest_is_first (t : table) (now : timestamp) (r : row) :
  In r t -> updated_at r = now ->
  (forall x, In x t -> (updated_at x <= now)%Z) ->
  exists h rest,
    order_by_updated_at_desc t = h :: rest /\ In h t /\ updated_at h = now.
Proof.
  intros Hr Hnow Hmax.
  pose proof (order_by_perm t) as Hp. pose proof (order_by_sorted t) as Hs.
  destruct (order_by_updated_at_desc t) as [|h rest].
  - apply Permutation_sym, Permutation_nil in Hp. subst t. destruct Hr.
  - exists h, rest. split; [reflexivity|].
    assert (Hh : In h t).
    { eapply Permutation_in; [apply Permutation_sym, Hp|now left]. }
    split; [exact Hh|].
    pose proof (Hmax h Hh) as Hle.
    assert (Hr' : In r (h :: rest)) by (eapply Permutation_in; eassumption).
    destruct Hr' as [->|Hr']; [exact Hnow|].
    inversion Hs as [|? ? _ Hall]; subst.
    pose proof (proj1 (Forall_forall _ _) Hall r Hr') as Hge.
    unfold newer_first in Hge. lia.
Qed.

(** X9. The journal written last is listed first: after a [createJournal]
    or an [autoSaveJournal] that succeeds, or an [updateJournal] that
    changes a row, at a time later than every [updated_at] in the table,
    [getAllJournals] returns a list whose first row has the record's id
    and the time of the call as [updated_at]. *)
Theorem written_journal_is_listed_first (t : table) (journal : jsval)
  (p : params) (i : string) (now : timestamp) (n : run_info) (w' : world) :
  bind_journal journal = Ok p ->
  p_id p = SqlText i ->
  (forall r, In r t -> (updated_at r < now)%Z) ->
  createJournal journal now (open_world t) = (Ok n, w')
  \/ autoSaveJournal journal now (open_world t) = (Ok n, w')
  \/ (updateJournal journal now (open_world t) = (Ok n, w') /\ changes n <> 0) ->
  exists h rest,
    getAllJournals w' = (Ok (h :: rest), w')
    /\ id h = SqlText i /\ updated_at h = now.
Proof.
  intros Hb Hi Hold Hop.
  assert (Hkey : exists t' r,
             w' = open_world t' /\ In r t' /\ updated_at r = now
             /\ forall x, In x t' ->
                  (updated_at x < now)%Z
                  \/ (id x = SqlText i /\ updated_at x = now)).
  { destruct Hop as [H|[H|[H Hn]]]; run_on_open_world; rewrite Hb in H.
    - unfold sql_insert in H. rewrite Hi in H.
      destruct (p_title p) as [|ttl]; [discriminate|].
      destruct (existsb (has_id (SqlText i)) t); [discriminate|].
      injection H as _ <-. do 2 eexists. split; [reflexivity|].
      split; [apply in_or_app; right; now left|]. split; [reflexivity|].
      intros x Hx. apply in_app_or in Hx. destruct Hx as [Hx|[<-|[]]].
      + left. now apply Hold.
      + right. now split.
    - unfold sql_insert_or_replace in H. rewrite Hi in H.
      destruct (p_title p) as [|ttl]; [discriminate|].
      injection H as _ <-. do 2 eexists. split; [reflexivity|].
      split; [apply in_or_app; right; now left|]. split; [reflexivity|].
      intros x Hx. apply in_app_or in Hx. destruct Hx as [Hx|[<-|[]]].
      + left. apply filter_In in Hx. now apply Hold.
      + right. now split.
    - unfold sql_update in H. rewrite Hi in H.
      destruct (filter (has_id (SqlText i)) t) as [|hit hits] eqn:Ef.
      { injection H as <- _. now contradiction Hn. }
      destruct (p_title p) as [|ttl]; [discriminate|].
      injection H as _ <-.
      assert (Hhit : In hit t /\ has_id (SqlText i) hit = true).
      { apply filter_In. rewrite Ef. now left. }
      destruct Hhit as [Hin Hid].
      exists (map (fun r => if has_id (SqlText i) r
                            then mkJournal (id r) ttl (p_content p)
                                           (created_at r) now (is_published r)
                            else r) t).
      exists (mkJournal (id hit) ttl (p_content p) (created_at hit) now
                        (is_published hit)).
      split; [reflexivity|]. split; [|split; [reflexivity|]].
      + apply in_map_iff. exists hit. split; [now rewrite Hid|exact Hin].
      + intros x Hx. apply in_map_iff in Hx. destruct Hx as (y & <- & Hy).
        destruct (has_id (SqlText i) y) eqn:E.
        * right. split; [now apply has_id_text|reflexivity].
        * left. now apply Hold. }
  destruct Hkey as (t' & r & -> & Hr & Hnow & Hall).
  destruct (newest_is_first t' now r Hr Hnow) as (h & rest & Hsort & Hh & Hhn).
  { intros x Hx. destruct (Hall x Hx) as [Hlt|[_ Heq]]; lia. }
  exists h, rest. split; [|split; [|exact Hhn]].
  - unfold getAllJournals. rewrite with_table_open. unfold sql_select_all.
    now rewrite Hsort.
  - destruct (Hall h Hh) as [Hlt|[Hid _]]; [lia|exact Hid].
Qed.

Lemma written_journal_is_listed_first_witness :
  let j := JObj [("id", JStr "a"); ("title", JStr "again"); ("content", JNull)] in
  let p := mkParams (SqlText "a") (SqlText "again") SqlNull in
  let w' := snd (updateJournal j 300%Z (open_world blank_rows)) in
  bind_journal j = Ok p
  /\ (forall r, In r blank_rows -> (updated_at r < 300)%Z)
  /\ exists h rest,
      getAllJournals w' = (Ok (h :: rest), w')
      /\ id h = SqlText "a" /\ updated_at h = 300%Z.
Proof.
  intros j p w'.
  assert (Hold : forall r, In r blank_rows -> (updated_at r < 300)%Z).
  { intros r [<-|[<-|[]]]; cbn [updated_at]; lia. }
  split; [reflexivity|]. split; [exact Hold|].
  apply (written_journal_is_listed_first blank_rows j p "a" 300%Z (mkRunInfo 1) w');
    [reflexivity | reflexivity | exact Hold |].
  right. right. split; [reflexivity|discriminate].
Defined.

(** ** Initialization, continued *)

(** X10. [initialize] never touches stored rows: whatever goes wrong, a
    table that exists is left as it is, and a file without the table
    either still has none or has an empty one.  When [initialize] returns
    true on a world without connection, the connection is assigned and the
    table exists. *)
Theorem initialize_keeps_the_rows (f : init_fault) (w : world) :
  (forall t, journals w = Some t -> journals (snd (initialize f w)) = Some t)
  /\ (journals w = None ->
      journals (snd (initialize f w)) = None
      \/ journals (snd (initialize f w)) = Some [])
  /\ (db w = false -> fst (initialize f w) = true ->
      db (snd (initialize f w)) = true
      /\ exists t, journals (snd (initialize f w)) = Some t).
Proof.
  unfold initialize. destruct w as [[|] o]; cbn [db negb journals].
  - split; [|split].
    + intros t ->. reflexivity.
    + intros ->. now left.
    + discriminate.
  - destruct f; cbn [initializeDatabase snd fst journals db]; split; try split;
      try (intros t ->; reflexivity);
      try (intros ->; cbn; auto; fail);
      try (intros _ Hf; discriminate Hf).
    intros _ _. split; [reflexivity|]. destruct o; cbn; eauto.
Qed.

Lemma initialize_keeps_the_rows_witness :
  let w := mkWorld false (Some [sample_row]) in
  journals w = Some [sample_row]
  /\ journals (snd (initialize FaultInProbe w)) = Some [sample_row].
Proof.
  intros w. split; [reflexivity|].
  apply (proj1 (initialize_keeps_the_rows FaultInProbe w)). reflexivity.
Defined.

(** X11. A setup that fails after the connection is assigned is not tried
    again: on a world without connection, a fault in [CREATE TABLE] or in
    the probe makes [initialize] return false with [db] set, every later
    [initialize] returns true and does nothing, and after a fault in
    [CREATE TABLE] on a file without the table every operation fails in
    the engine with 'no such table', not with 'Database not initialized'. *)
Theorem failed_setup_is_not_retried (w : world) (f : init_fault) :
  db w = false ->
  f = FaultInCreateTable \/ f = FaultInProbe ->
  let w1 := snd (initialize f w) in
  fst (initialize f w) = false
  /\ db w1 = true
  /\ (forall f', initialize f' w1 = (true, w1))
  /\ (f = FaultInCreateTable -> journals w = None ->
      forall journal i now,
        createJournal journal now w1 = (Err NoSuchTable, w1)
        /\ getAllJournals w1 = (Err NoSuchTable, w1)
        /\ getJournalById i w1 = (Err NoSuchTable, w1)
        /\ updateJournal journal now w1 = (Err NoSuchTable, w1)
        /\ deleteJournal i w1 = (Err NoSuchTable, w1)
        /\ autoSaveJournal journal now w1 = (Err NoSuchTable, w1)).
Proof.
  intros Hdb Hf. destruct w as [d o]. cbn [db] in Hdb. subst d.
  destruct Hf as [-> | ->]; cbv zeta; cbn [initialize db negb initializeDatabase
    fst snd journals].
  - split; [reflexivity|]. split; [reflexivity|]. split; [reflexivity|].
    intros _ ->. intros. repeat split.
  - split; [reflexivity|]. split; [reflexivity|]. split; [reflexivity|].
    discriminate.
Qed.

Lemma failed_setup_is_not_retried_witness :
  let w := mkWorld false None in
  let w1 := snd (initialize FaultInCreateTable w) in
  db w = false
  /\ fst (initialize FaultInCreateTable w) = false
  /\ db w1 = true
  /\ (forall f', initialize f' w1 = (true, w1))
  /\ (FaultInCreateTable = FaultInCreateTable -> journals w = None ->
      forall journal i now,
        createJournal journal now w1 = (Err NoSuchTable, w1)
        /\ getAllJournals w1 = (Err NoSuchTable, w1)
        /\ getJournalById i w1 = (Err NoSuchTable, w1)
        /\ updateJournal journal now w1 = (Err NoSuchTable, w1)
        /\ deleteJournal i w1 = (Err NoSuchTable, w1)
        /\ autoSaveJournal journal now w1 = (Err NoSuchTable, w1)).
Proof.
  intros w w1. split; [reflexivity|].
  apply (failed_setup_is_not_retried w FaultInCreateTable); [reflexivity|now left].
Defined.

(** ** The gateway, continued *)

Section GatewayMore.
Context {J : JSON}.

(** X12. The gateway looks at the id before it goes to the store.  With an
    id that is missing or falsy, get-journal and delete-journal fail with
    'Journal ID is required' and update-journal and auto-save-journal with
    'Invalid journal data', and the world is left as it was, connection or
    not.  With an id and no connection, all four fail with 'Database not
    initialized'. *)
Theorem gateway_checks_the_id_first (w : world) (now : timestamp) :
  (forall i, truthy i = false ->
     handle_get_journal i w = (Err JournalIdRequired, w)
     /\ handle_delete_journal i w = (Err JournalIdRequired, w))
  /\ (forall journal, truthy (get_prop journal "id") = false ->
        handle_update_journal journal now w = (Err InvalidJournalData, w)
        /\ handle_auto_save_journal journal now w = (Err InvalidJournalData, w))
  /\ (db w = false ->
      forall i journal,
        truthy i = true -> truthy (get_prop journal "id") = true ->
        handle_get_journal i w = (Err DatabaseNotInitialized, w)
        /\ handle_delete_journal i w = (Err DatabaseNotInitialized, w)
        /\ handle_update_journal journal now w = (Err DatabaseNotInitialized, w)
        /\ handle_auto_save_journal journal now w
           = (Err DatabaseNotInitialized, w)).
Proof.
  split; [|split].
  - intros i Hi. unfold handle_get_journal, handle_delete_journal.
    rewrite Hi. split; reflexivity.
  - intros journal Hj. unfold handle_update_journal, handle_auto_save_journal.
    rewrite Hj. cbn [negb]. rewrite orb_true_r. split; reflexivity.
  - intros Hdb i journal Hi Hj.
    destruct (truthy_prop_is_object _ _ Hj) as [ps ->].
    unfold handle_get_journal, handle_delete_journal, handle_update_journal,
      handle_auto_save_journal.
    rewrite Hi, Hj. cbn [truthy negb orb].
    unfold bind, getJournalById, deleteJournal, updateJournal, autoSaveJournal,
      with_table.
    rewrite Hdb. cbn [negb]. repeat split.
Qed.

(** X13. update-journal and auto-save-journal, given a record with an id,
    hand [updateJournal] and [autoSaveJournal] the same record: its id and
    title are the caller's (the title is not looked at), and its content
    is the text of [JSON.stringify] when the caller's content is a
    structure and the caller's content itself when it is not. *)
Theorem update_and_auto_save_forward (journal : jsval) (now : timestamp)
  (w : world) :
  truthy (get_prop journal "id") = true ->
  exists forwarded,
    handle_update_journal journal now w = updateJournal forwarded now w
    /\ handle_auto_save_journal journal now w = autoSaveJournal forwarded now w
    /\ get_prop forwarded "id" = get_prop journal "id"
    /\ get_prop forwarded "title" = get_prop journal "title"
    /\ get_prop forwarded "content"
       = (let c := get_prop journal "content" in
          if truthy c && js_type_eqb (typeof c) TObject
          then JStr (JSON_stringify c) else c).
Proof.
  intros Hj. destruct (truthy_prop_is_object _ _ Hj) as [ps ->].
  exists (JObj (stringify_content ps)).
  unfold handle_update_journal, handle_auto_save_journal.
  rewrite Hj. cbn [truthy negb orb spread].
  split; [reflexivity|]. split; [reflexivity|].
  split; [|split].
  - cbn [get_prop]. now rewrite stringify_content_other by discriminate.
  - cbn [get_prop]. now rewrite stringify_content_other by discriminate.
  - apply stringify_content_content.
Qed.

Lemma parse_content_keeps_the_columns (j : journal_obj) :
  id (parse_content j) = id j
  /\ title (parse_content j) = title j
  /\ created_at (parse_content j) = created_at j
  /\ updated_at (parse_content j) = updated_at j
  /\ is_published (parse_content j) = is_published j.
Proof.
  unfold parse_content. destruct (content j); try (repeat split; reflexivity).
  destruct (truthy (JStr s)); repeat split; reflexivity.
Qed.

(** X14. The read handlers change nothing but the content: get-all-journals
    on an initialized store returns one journal for each row of the table,
    in the order of [getAllJournals], and each journal has the id, title,
    timestamps and publish flag of its row; so has the journal get-journal
    returns for the row it finds.  Neither handler changes the store. *)
Theorem read_handlers_change_only_content (t : table) :
  (exists js,
      handle_get_all_journals (open_world t) = (Ok js, open_world t)
      /\ length js = length t
      /\ Forall2 (fun r j =>
                    id j = id r /\ title j = title r
                    /\ created_at j = created_at r
                    /\ updated_at j = updated_at r
                    /\ is_published j = is_published r)
                 (sql_select_all t) js)
  /\ (forall i v r,
        truthy i = true -> bind_id i = Ok v ->
        sql_select_by_id v t = Some r ->
        exists j,
          handle_get_journal i (open_world t) = (Ok (Some j), open_world t)
          /\ id j = id r /\ title j = title r
          /\ created_at j = created_at r
          /\ updated_at j = updated_at r
          /\ is_published j = is_published r).
Proof.
  split.
  - eexists. split; [apply handle_get_all_journals_open|]. split.
    + rewrite length_map. unfold sql_select_all.
      apply Permutation_length, Permutation_sym, order_by_perm.
    + induction (sql_select_all t) as [|r rows IH]; cbn [map]; constructor;
        [|exact IH].
      apply (parse_content_keeps_the_columns (row_object r)).
  - intros i v r Hi Hb Hr. eexists. split.
    + rewrite (handle_get_journal_open t i v Hi Hb), Hr. reflexivity.
    + apply (parse_content_keeps_the_columns (row_object r)).
Qed.

(** X15. A content given as text is stored as it is and parsed when read:
    after create-journal with a content that is a non-empty text, the row
    holds that text, and get-journal returns what [JSON.parse] makes of
    it, which is the empty structure when [JSON.parse] rejects it. *)
Theorem text_content_is_parsed_when_read (t : table) (now : timestamp)
  (uuid ttl txt : string) (ps : list (string * jsval)) :
  uuid <> "" -> ttl <> "" -> txt <> "" ->
  (forall r, In r t -> id r <> SqlText uuid) ->
  lookup_prop "title" ps = Some (JStr ttl) ->
  lookup_prop "content" ps = Some (JStr txt) ->
  let stored := mkJournal (SqlText uuid) ttl (SqlText txt) now now false in
  handle_create_journal uuid (JObj ps) now (open_world t)
  = (Ok (mkRunInfo 1), open_world (t ++ [stored]))
  /\ handle_get_journal (JStr uuid) (open_world (t ++ [stored]))
     = (Ok (Some (set_content (row_object stored)
                    match JSON_parse txt with
                    | Some v => v
                    | None => default_content
                    end)),
        open_world (t ++ [stored])).
Proof.
  intros Hu Httl Htxt Hfresh Ht Hc stored.
  assert (Htitle : truthy (get_prop (JObj ps) "title") = true).
  { cbn [get_prop]. rewrite Ht. now apply truthy_text. }
  split.
  - rewrite (handle_create_journal_forwards uuid ps now _ Htitle).
    apply (createJournal_open t _ (mkParams (SqlText uuid) (SqlText ttl) (SqlText txt)));
      try reflexivity; [|exact Hfresh].
    cbn [bind_journal]. unfold bind_named.
    rewrite !stringify_content_other by discriminate.
    rewrite lookup_assign_same.
    rewrite (lookup_assign_other "id" "title") by discriminate. rewrite Ht.
    pose proof (stringify_content_content (assign_prop "id" (JStr uuid) ps)) as H.
    cbv zeta in H. rewrite (get_assign_other "id" "content") in H by discriminate.
    cbn [get_prop] in H. rewrite Hc in H.
    cbn [typeof js_type_eqb] in H. rewrite andb_false_r in H.
    destruct (lookup_prop "content"
                (stringify_content (assign_prop "id" (JStr uuid) ps))) as [x|];
      [subst x|discriminate].
    reflexivity.
  - rewrite (handle_get_journal_open _ (JStr uuid) (SqlText uuid)
               (truthy_text uuid Hu) eq_refl).
    unfold stored. rewrite select_fresh_row by exact Hfresh.
    cbn [option_map]. unfold parse_content, row_object.
    cbn [content js_of_sql]. now rewrite (truthy_text txt Htxt).
Qed.

End GatewayMore.

Lemma update_and_auto_save_forward_witness :
  let J := json_model in
  let journal := JObj [("id", JStr "a"); ("content", content_to_js day1)] in
  truthy (get_prop journal "id") = true
  /\ exists forwarded,
      handle_update_journal journal 200%Z (open_world [sample_row])
      = updateJournal forwarded 200%Z (open_world [sample_row])
      /\ handle_auto_save_journal journal 200%Z (open_world [sample_row])
         = autoSaveJournal forwarded 200%Z (open_world [sample_row])
      /\ get_prop forwarded "id" = get_prop journal "id"
      /\ get_prop forwarded "title" = get_prop journal "title"
      /\ get_prop forwarded "content"
         = (let c := get_prop journal "content" in
            if truthy c && js_type_eqb (typeof c) TObject
            then JStr (JSON_stringify c) else c).
Proof.
  intros J journal. split; [reflexivity|].
  apply (@update_and_auto_save_forward J journal 200%Z (open_world [sample_row])).
  reflexivity.
Defined.

Lemma text_content_is_parsed_when_read_witness :
  let ps := [("title", JStr "Day 1"); ("content", JStr "woke up")] in
  let stored := mkJournal (SqlText "0b5c") "Day 1" (SqlText "woke up")
                          300%Z 300%Z false in
  (forall r, In r blank_rows -> id r <> SqlText "0b5c")
  /\ @handle_create_journal json_model "0b5c" (JObj ps) 300%Z (open_world blank_rows)
     = (Ok (mkRunInfo 1), open_world (blank_rows ++ [stored]))
  /\ @handle_get_journal json_model (JStr "0b5c") (open_world (blank_rows ++ [stored]))
     = (Ok (Some (set_content (row_object stored)
                    match @JSON_parse json_model "woke up" with
                    | Some v => v
                    | None => default_content
                    end)),
        open_world (blank_rows ++ [stored])).
Proof.
  intros ps stored.
  assert (Hfresh : forall r, In r blank_rows -> id r <> SqlText "0b5c").
  { intros r [<-|[<-|[]]]; discriminate. }
  split; [exact Hfresh|].
  apply (@text_content_is_parsed_when_read json_model blank_rows 300%Z
           "0b5c" "Day 1" "woke up" ps);
    [discriminate | discriminate | discriminate | exact Hfresh
    | reflexivity | reflexivity].
Defined.

Lemma read_handlers_change_only_content_witness :
  exists js,
    @handle_get_all_journals json_model (open_world blank_rows)
    = (Ok js, open_world blank_rows)
    /\ length js = length blank_rows
    /\ Forall2 (fun r j =>
                  id j = id r /\ title j = title r
                  /\ created_at j = created_at r
                  /\ updated_at j = updated_at r
                  /\ is_published j = is_published r)
               (sql_select_all blank_rows) js.
Proof.
  exact (proj1 (@read_handlers_change_only_content json_model blank_rows)).
Defined.

(** X16. A content structure written through auto-save-journal, whether a
    journal with the id was stored before or not, is what get-journal and
    get-all-journals then return as the content of that journal. *)
Theorem auto_save_then_read (J : JSON) (L : JSONLaws J) (t : table)
  (c : content_structure) (now : timestamp) (i ttl : string)
  (ps : list (string * jsval)) :
  i <> "" ->
  lookup_prop "id" ps = Some (JStr i) ->
  lookup_prop "title" ps = Some (JStr ttl) ->
  lookup_prop "content" ps = Some (content_to_js c) ->
  exists t',
    handle_auto_save_journal (JObj ps) now (open_world t)
    = (Ok (mkRunInfo 1), open_world t')
    /\ reads_back t' i (content_to_js c).
Proof.
  intros Hi Hid Ht Hc.
  unfold handle_auto_save_journal. cbn [truthy negb orb get_prop spread].
  rewrite Hid, (truthy_text i Hi). cbn [negb].
  rewrite (autoSaveJournal_open t _ _ ttl now
             (bind_journal_forwarded ps i ttl c Hid Ht Hc) eq_refl).
  cbn [p_id p_content]. eexists. split; [reflexivity|].
  apply reads_back_stored; [exact Hi| |].
  - eexists. split; [apply in_or_app; right; now left|reflexivity].
  - intros r Hr Hidr. apply in_app_or in Hr. destruct Hr as [Hr|[<-|[]]].
    + apply filter_In in Hr. destruct Hr as [_ Hr].
      rewrite (proj2 (has_id_text i r) Hidr) in Hr. discriminate.
    + reflexivity.
Qed.

Lemma auto_save_then_read_witness :
  let ps := [("id", JStr "a"); ("title", JStr "Day 1"); ("content", content_to_js day1)] in
  JSONLaws json_model
  /\ "a" <> ""
  /\ exists t',
      @handle_auto_save_journal json_model (JObj ps) 300%Z (open_world blank_rows)
      = (Ok (mkRunInfo 1), open_world t')
      /\ @reads_back json_model t' "a" (content_to_js day1).
Proof.
  intros ps. split; [exact json_model_laws|]. split; [discriminate|].
  apply (auto_save_then_read json_model json_model_laws blank_rows day1 300%Z
           "a" "Day 1" ps);
    [discriminate | reflexivity | reflexivity | reflexivity].
Defined.

Lemma gateway_checks_the_id_first_witness :
  let w := mkWorld false None in
  @handle_get_journal json_model (JStr "") w = (Err JournalIdRequired, w)
  /\ handle_delete_journal (JStr "") w = (Err JournalIdRequired, w).
Proof.
  intros w.
  apply (proj1 (@gateway_checks_the_id_first json_model w 0%Z) (JStr "")).
  reflexivity.
Defined.

(** ** The media pickers *)

Section Pickers.
Context {N : Node}.

(** X17. select-image and select-video return null exactly when the dialog
    was canceled or gave no path.  Otherwise they read the first chosen
    file and no other: they throw when that read throws, and else return
    the first path with a data URL made of the media type, the extension
    of the path without its first character, and the encoded content of
    that file; the two handlers differ in the media type only. *)
Theorem pickers_read_the_first_file (fs : file_system) (result : open_dialog_result) :
  (handle_select_image fs result = Returned None
   <-> canceled result = true \/ filePaths result = [])
  /\ (handle_select_video fs result = Returned None
      <-> canceled result = true \/ filePaths result = [])
  /\ (forall p rest,
        canceled result = false -> filePaths result = p :: rest ->
        match fs p with
        | None =>
            handle_select_image fs result = Thrown
            /\ handle_select_video fs result = Thrown
        | Some buffer =>
            let tail := (slice_1 (path_extname p) ++ ";base64,"
                           ++ toString_base64 buffer)%string in
            handle_select_image fs result
            = Returned (Some (mkMedia p ("data:image/" ++ tail)%string))
            /\ handle_select_video fs result
               = Returned (Some (mkMedia p ("data:video/" ++ tail)%string))
        end)
  /\ (forall fs' : file_system,
        (forall p rest, filePaths result = p :: rest -> fs' p = fs p) ->
        handle_select_image fs' result = handle_select_image fs result
        /\ handle_select_video fs' result = handle_select_video fs result).
Proof.
  unfold handle_select_image, handle_select_video.
  destruct result as [c [|p rest]]; cbn [canceled filePaths length].
  - rewrite andb_false_r. repeat split; auto; discriminate.
  - destruct c; cbn [negb andb Nat.ltb Nat.leb].
    + repeat split; auto; discriminate.
    + split; [|split; [|split]].
      * destruct (fs p); split; try discriminate; intros [H|H]; discriminate.
      * destruct (fs p); split; try discriminate; intros [H|H]; discriminate.
      * intros p' rest' _ E. injection E as <- <-.
        destruct (fs p); split; reflexivity.
      * intros fs' H. rewrite (H p rest eq_refl). split; reflexivity.
Qed.

End Pickers.

(** ** Lookup *)

(** X18. [getJournalById] finds a journal exactly when one is stored under
    the id: a row it returns is a row of the table with that id, and when
    a row of the table has the id it returns a row, which is that row when
    ids are unique.  The store is not changed. *)
Theorem getJournalById_finds_the_row (t : table) (i : string) :
  (forall r,
      getJournalById (JStr i) (open_world t) = (Ok (Some r), open_world t) ->
      In r t /\ id r = SqlText i)
  /\ (forall r, In r t -> id r = SqlText i ->
        exists r',
          getJournalById (JStr i) (open_world t) = (Ok (Some r'), open_world t)
          /\ (ids_unique t -> r' = r)).
Proof.
  split.
  - intros r H. rewrite getJournalById_open in H. injection H as H.
    apply find_some in H. destruct H as [Hin Hid].
    split; [exact Hin|]. now apply has_id_text.
  - intros r Hin Hid. rewrite getJournalById_open. unfold sql_select_by_id.
    destruct (find (has_id (SqlText i)) t) as [r'|] eqn:E.
    + exists r'. split; [reflexivity|]. intros Hu.
      rewrite find_head_filter, (only_row_with_id t r i Hu Hin Hid) in E.
      now injection E.
    + pose proof (find_none _ _ E r Hin) as Hno.
      rewrite (proj2 (has_id_text i r) Hid) in Hno. discriminate.
Qed.

Lemma getJournalById_finds_the_row_witness :
  In sample_row [sample_row]
  /\ id sample_row = SqlText "a"
  /\ exists r',
      getJournalById (JStr "a") (open_world [sample_row])
      = (Ok (Some r'), open_world [sample_row])
      /\ (ids_unique [sample_row] -> r' = sample_row).
Proof.
  split; [now left|]. split; [reflexivity|].
  apply (proj2 (getJournalById_finds_the_row [sample_row] "a") sample_row);
    [now left | reflexivity].
Defined.

(** * The publish flag, the missing parameter and the failed setup *)

(** ** The publish flag on the tables the code produces *)








(** ** A record the statement cannot bind *)


(** ** A setup that failed with the connection assigned *)

